(** * go-kube-get: resolution of a resource identifier and listing

    A shallow embedding of [findGVR] and [Get] of package [gokubeget].
    Go strings are byte sequences, so they are Rocq [string]s (lists of
    8-bit [ascii]).  The three collaborators of [KubeGet] (the REST
    mapper, the discovery client and the dynamic client) are external and
    may keep state of their own (the discovery client is a cache), so a
    call to one of them is a node of a small program tree [Prog]; a tree is
    run against an arbitrary implementation of the collaborators, and the
    run records every call together with what it returned. *)

From Stdlib Require Import String Ascii List Bool Arith NArith Lia.
From ExtLib Require Import Structures.Monad.
Import ListNotations.
Import MonadNotation.
Local Open Scope string_scope.
Local Open Scope list_scope.
Local Open Scope monad_scope.

Set Implicit Arguments.

(** ** Values of the Kubernetes API packages *)

(** [schema.GroupVersionResource] *)
Record GroupVersionResource : Type := mkGVR {
  gvrGroup : string;
  gvrVersion : string;
  gvrResource : string
}.

(** [schema.GroupVersion] *)
Record GroupVersion : Type := mkGV {
  gvGroup : string;
  gvVersion : string
}.

(** [schema.GroupKind] *)
Record GroupKind : Type := mkGK {
  gkGroup : string;
  gkKind : string
}.

(** [schema.GroupVersionKind] *)
Record GroupVersionKind : Type := mkGVK {
  gvkGroup : string;
  gvkVersion : string;
  gvkKind : string
}.

(** [meta.RESTMapping]; [findGVR] reads its [Resource] field only.  The
    REST mapper hands out [[]*RESTMapping] whose elements are never nil. *)
Record RESTMapping : Type := mkRESTMapping {
  mappingResource : GroupVersionResource;
  mappingGroupVersionKind : GroupVersionKind
}.

(** [metav1.APIResource], with the three fields [findGVR] compares. *)
Record APIResource : Type := mkAPIResource {
  Name : string;
  Kind : string;
  ShortNames : list string
}.

(** [metav1.APIResourceList] *)
Record APIResourceList : Type := mkAPIResourceList {
  GroupVersionString : string;
  APIResources : list APIResource
}.

(** An item of [unstructured.UnstructuredList]: its name and namespace. *)
Record Unstructured : Type := mkUnstructured {
  itemName : string;
  itemNamespace : string
}.

Record UnstructuredList : Type := mkUnstructuredList {
  Items : list Unstructured
}.

(** The zero value [schema.GroupVersionResource{}]. *)
Definition zeroGVR : GroupVersionResource := mkGVR "" "" "".

(** The zero value [schema.GroupVersion{}]. *)
Definition zeroGV : GroupVersion := mkGV "" "".

(** [gv.WithResource(resource)] *)
Definition WithResource (gv : GroupVersion) (resource : string) : GroupVersionResource :=
  mkGVR (gvGroup gv) (gvVersion gv) resource.

(** ** Errors

    An error built by [fmt.Errorf] is kept as the format string and the
    operands it was applied to, in order; [errors.New]-like errors of the
    collaborators are [ErrorString].  A [%q] operand is an [AStr], a [%w]
    operand an [AErr]; [AGvr] is a descriptor operand. *)
Inductive error : Type :=
| ErrorString (msg : string)
| Errorf (format : string) (operands : list Operand)
with Operand : Type :=
| AStr (s : string)
| AGvr (g : GroupVersionResource)
| AErr (e : error).

(** The operands an error value was wrapped with by its outermost
    [fmt.Errorf]. *)
Definition operandsOf (e : error) : list Operand :=
  match e with
  | ErrorString _ => []
  | Errorf _ ops => ops
  end.

(** A Go value of type [error] is nil or an error. *)
Definition isNil (err : option error) : bool :=
  match err with
  | None => true
  | Some _ => false
  end.

(** ** Package [strings] on byte strings *)

(** [strings.HasPrefix(s, p)] *)
Fixpoint HasPrefix (s p : string) {struct p} : bool :=
  match p with
  | EmptyString => true
  | String b p' =>
      match s with
      | EmptyString => false
      | String a s' => Ascii.eqb a b && HasPrefix s' p'
      end
  end.

(** [strings.Contains(s, substr)] *)
Fixpoint Contains (s substr : string) : bool :=
  HasPrefix s substr ||
  match s with
  | EmptyString => false
  | String _ s' => Contains s' substr
  end.

(** [strings.Split(s, sep)] for a non-empty [sep]: the pieces of [s]
    between the non-overlapping occurrences of [sep], left to right.
    [skip] counts the bytes of an occurrence still to be passed over. *)
Fixpoint splitFrom (sep s : string) (skip : nat) : list string :=
  match s with
  | EmptyString => [""]
  | String a s' =>
      match skip with
      | S n => splitFrom sep s' n
      | O =>
          if HasPrefix s sep then "" :: splitFrom sep s' (String.length sep - 1)
          else
            match splitFrom sep s' 0 with
            | piece :: pieces => String a piece :: pieces
            | [] => [String a ""]
            end
      end
  end.

Definition Split (s sep : string) : list string := splitFrom sep s 0.

(** [strings.Join(elems, sep)] *)
Definition Join (elems : list string) (sep : string) : string :=
  String.concat sep elems.

(** [s[i]]: [None] is the index-out-of-range panic. *)
Definition byteAt (s : string) (i : nat) : option ascii := String.get i s.

(** [s[i:]]: [None] is the slice-bounds-out-of-range panic ([i > len(s)]). *)
Fixpoint sliceFrom (s : string) (i : nat) {struct i} : option string :=
  match i, s with
  | O, _ => Some s
  | S _, EmptyString => None
  | S j, String _ s' => sliceFrom s' j
  end.

(** [parts[i]] and [parts[i:]] on a slice of strings. *)
Definition elemAt (parts : list string) (i : nat) : option string := nth_error parts i.

Fixpoint elemsFrom (parts : list string) (i : nat) {struct i}
  : option (list string) :=
  match i, parts with
  | O, _ => Some parts
  | S _, [] => None
  | S j, _ :: parts' => elemsFrom parts' j
  end.

(** [string(b)] for a byte [b]: the UTF-8 encoding of the code point [b],
    one byte below 0x80 and two bytes from 0x80 on. *)
Definition stringOfByte (b : ascii) : string :=
  let n := N_of_ascii b in
  if (n <? 128)%N then String b ""
  else String (ascii_of_N (192 + n / 64)) (String (ascii_of_N (128 + n mod 64)) "").

(** The case conversions of package [strings] that [findGVR] calls.  They
    are Unicode-aware in Go; the resolver is written over the interface,
    and [AsciiCase] below is what they compute on ASCII strings. *)
Class CaseOps : Type := {
  ToUpper : string -> string;
  ToLower : string -> string;
  Title : string -> string;
  EqualFold : string -> string -> bool
}.

Definition isASCIIByte (b : ascii) : bool := (N_of_ascii b <? 128)%N.

Fixpoint isASCII (s : string) : bool :=
  match s with
  | EmptyString => true
  | String b s' => isASCIIByte b && isASCII s'
  end.

Definition isLowerByte (b : ascii) : bool :=
  ((97 <=? N_of_ascii b) && (N_of_ascii b <=? 122))%N.

Definition isUpperByte (b : ascii) : bool :=
  ((65 <=? N_of_ascii b) && (N_of_ascii b <=? 90))%N.

Definition isDigitByte (b : ascii) : bool :=
  ((48 <=? N_of_ascii b) && (N_of_ascii b <=? 57))%N.

Definition upperByte (b : ascii) : ascii :=
  if isLowerByte b then ascii_of_N (N_of_ascii b - 32) else b.

Definition lowerByte (b : ascii) : ascii :=
  if isUpperByte b then ascii_of_N (N_of_ascii b + 32) else b.

Fixpoint mapBytes (f : ascii -> ascii) (s : string) : string :=
  match s with
  | EmptyString => EmptyString
  | String b s' => String (f b) (mapBytes f s')
  end.

(** [strings.isSeparator] on an ASCII byte: everything but letters, digits
    and the underscore separates words. *)
Definition isSeparator (b : ascii) : bool :=
  negb (isDigitByte b || isLowerByte b || isUpperByte b || Ascii.eqb b "_"%char).

(** [strings.Title]: maps the letter that follows a separator (or starts
    the string) to title case; [prev] is the previous byte. *)
Fixpoint titleFrom (prev : ascii) (s : string) : string :=
  match s with
  | EmptyString => EmptyString
  | String b s' =>
      String (if isSeparator prev then upperByte b else b) (titleFrom b s')
  end.

(** The ASCII loop of [strings.EqualFold]: bytes are compared pairwise, a
    pair matches when equal or when the smaller is an upper-case letter
    and the larger its lower-case form; the lengths must agree. *)
Definition foldPair (a b : ascii) : bool :=
  Ascii.eqb a b
  || (isUpperByte a && Ascii.eqb b (lowerByte a))
  || (isUpperByte b && Ascii.eqb a (lowerByte b)).

Fixpoint equalFoldBytes (s t : string) : bool :=
  match s, t with
  | EmptyString, EmptyString => true
  | String a s', String b t' => foldPair a b && equalFoldBytes s' t'
  | _, _ => false
  end.

(** The 256 bytes. *)
Definition allBytes : list ascii := map ascii_of_nat (seq 0 256).

#[export] Instance AsciiCase : CaseOps := {
  ToUpper := mapBytes upperByte;
  ToLower := mapBytes lowerByte;
  Title := titleFrom " "%char;
  EqualFold := equalFoldBytes
}.

(** [schema.ParseGroupVersion]: the empty string and "/" give the zero
    value; no slash gives a version in the core group; one slash gives
    group and version; more slashes are an error.  The number of slashes
    is one less than the number of pieces of [Split gv "/"]. *)
Definition ParseGroupVersion (gv : string) : GroupVersion * option error :=
  if Nat.eqb (String.length gv) 0 || String.eqb gv "/" then (zeroGV, None)
  else
    match Split gv "/" with
    | [v] => (mkGV "" v, None)
    | [g; v] => (mkGV g v, None)
    | _ => (zeroGV, Some (Errorf "unexpected GroupVersion string: %v" [AStr gv]))
    end.


(** ** The collaborators

    [Call X] is a call to a collaborator that returns an [X]; a Go result
    pair [(v, err)] is the pair of the value and the possibly nil error.
    The discovery snapshot is a [[]*APIResourceList] whose elements may be
    nil; a listing is a possibly nil [*UnstructuredList].  For [List],
    [namespace] is [None] for [Resource(gvr).List] and [Some ns] for
    [Resource(gvr).Namespace(ns).List]. *)
Inductive Call : Type -> Type :=
| ResourceFor (input : GroupVersionResource) :
    Call (GroupVersionResource * option error)
| RESTMappings (gk : GroupKind) :
    Call (list RESTMapping * option error)
| ServerPreferredResources :
    Call (list (option APIResourceList) * option error)
| List (gvr : GroupVersionResource) (namespace : option string) :
    Call (option UnstructuredList * option error).

(** A call that was made, with what it returned. *)
Inductive Event : Type :=
| EvResourceFor (input : GroupVersionResource)
    (out : GroupVersionResource * option error)
| EvRESTMappings (gk : GroupKind) (out : list RESTMapping * option error)
| EvServerPreferredResources
    (out : list (option APIResourceList) * option error)
| EvList (gvr : GroupVersionResource) (namespace : option string)
    (out : option UnstructuredList * option error).

Definition eventOf {X : Type} (c : Call X) : X -> Event :=
  match c in Call T return T -> Event with
  | ResourceFor input => EvResourceFor input
  | RESTMappings gk => EvRESTMappings gk
  | ServerPreferredResources => EvServerPreferredResources
  | List gvr namespace => EvList gvr namespace
  end.

(** A computation that calls collaborators: it returns, panics
    ([Fault]: an index or slice bound out of range), or makes a call and
    continues with its result. *)
Inductive Prog (A : Type) : Type :=
| Ret (a : A)
| Fault
| Invoke (X : Type) (c : Call X) (k : X -> Prog A).

Arguments Ret {A} a.
Arguments Fault {A}.
Arguments Invoke {A X} c k.

Fixpoint progBind {A B : Type} (p : Prog A) (f : A -> Prog B) : Prog B :=
  match p with
  | Ret a => f a
  | Fault => Fault
  | Invoke c k => Invoke c (fun x => progBind (k x) f)
  end.

#[export] Instance Monad_Prog : Monad Prog := {
  ret := @Ret;
  bind := @progBind
}.

Definition call {X : Type} (c : Call X) : Prog X := Invoke c Ret.

(** The struct [KubeGet]: its three collaborators, each a function of
    the collaborator state [W] (caches, the cluster). *)
Record KubeGet (W : Type) : Type := mkKubeGet {
  restMapper_ResourceFor :
    GroupVersionResource -> W -> (GroupVersionResource * option error) * W;
  restMapper_RESTMappings :
    GroupKind -> W -> (list RESTMapping * option error) * W;
  discoveryClient_ServerPreferredResources :
    W -> (list (option APIResourceList) * option error) * W;
  dynamicClient_List :
    GroupVersionResource -> option string -> W ->
    (option UnstructuredList * option error) * W
}.

Definition perform {W X : Type} (k : KubeGet W) (c : Call X) : W -> X * W :=
  match c in Call T return W -> T * W with
  | ResourceFor input => restMapper_ResourceFor k input
  | RESTMappings gk => restMapper_RESTMappings k gk
  | ServerPreferredResources => discoveryClient_ServerPreferredResources k
  | List gvr namespace => dynamicClient_List k gvr namespace
  end.

(** Running a computation on collaborators [k] from state [w]: the
    result ([None] after a panic), the final state and the calls made, in
    order. *)
Fixpoint run {W A : Type} (k : KubeGet W) (p : Prog A) (w : W)
  : option A * W * list Event :=
  match p with
  | Ret a => (Some a, w, [])
  | Fault => (None, w, [])
  | Invoke c cont =>
      let (x, w1) := perform k c w in
      let '(r, w2, evs) := run k (cont x) w1 in
      (r, w2, eventOf c x :: evs)
  end.

(** ** [findGVR] *)

(** Strategy 1, the fully qualified form [resource.version.group]:
    [None] when the identifier has no dot or fewer than three parts;
    otherwise the three indexing operations, each of which can panic. *)
Definition fullyQualified (resourceName : string)
  : option (option GroupVersionResource) :=
  if Contains resourceName "." then
    let parts := Split resourceName "." in
    if Nat.leb 3 (List.length parts) then
      Some (match elemAt parts 0, elemAt parts 1, elemsFrom parts 2 with
            | Some resourceOnly, Some version, Some rest =>
                Some (mkGVR (Join rest ".") version resourceOnly)
            | _, _, _ => None
            end)
    else None
  else None.

Section Resolver.

Context {caseOps : CaseOps}.

(** The slice literal [kindVariations]; [None] when [resourceName[0]] or
    [resourceName[1:]] is out of range. *)
Definition kindVariations (resourceName : string) : option (list string) :=
  match byteAt resourceName 0, sliceFrom resourceName 1 with
  | Some first, Some rest =>
      Some [ resourceName;
             Title resourceName;
             ToUpper resourceName;
             String.append (ToUpper (stringOfByte first)) (ToLower rest) ]
  | _, _ => None
  end.

(** [err == nil && len(mappings) > 0], and then [mappings[0].Resource]. *)
Definition firstMapping (out : list RESTMapping * option error)
  : option GroupVersionResource :=
  match out with
  | (m :: _, None) => Some (mappingResource m)
  | _ => None
  end.

(** The loop over [kindVariations]. *)
Fixpoint tryKinds (kinds : list string) : Prog (option GroupVersionResource) :=
  match kinds with
  | [] => ret None
  | kind :: kinds' =>
      out <- call (RESTMappings (mkGK "" kind)) ;;
      match firstMapping out with
      | Some gvr => ret (Some gvr)
      | None => tryKinds kinds'
      end
  end.

(** The loop over [apiResource.ShortNames]. *)
Fixpoint hasShortName (resourceName : string) (shortNames : list string) : bool :=
  match shortNames with
  | [] => false
  | shortName :: shortNames' =>
      if String.eqb shortName resourceName then true
      else hasShortName resourceName shortNames'
  end.

(** The loop over [apiResourceList.APIResources]. *)
Fixpoint scanResources (gv : GroupVersion) (resourceName : string)
    (apiResources : list APIResource) : option GroupVersionResource :=
  match apiResources with
  | [] => None
  | apiResource :: apiResources' =>
      if String.eqb (Name apiResource) resourceName
         || EqualFold (Kind apiResource) resourceName
      then Some (WithResource gv (Name apiResource))
      else if hasShortName resourceName (ShortNames apiResource)
      then Some (WithResource gv (Name apiResource))
      else scanResources gv resourceName apiResources'
  end.

(** The loop over [apiResourceLists]: a nil list and a list whose
    group-version does not parse are passed over. *)
Fixpoint scanLists (resourceName : string)
    (apiResourceLists : list (option APIResourceList))
  : option GroupVersionResource :=
  match apiResourceLists with
  | [] => None
  | None :: lists' => scanLists resourceName lists'
  | Some apiResourceList :: lists' =>
      match ParseGroupVersion (GroupVersionString apiResourceList) with
      | (_, Some _) => scanLists resourceName lists'
      | (gv, None) =>
          match scanResources gv resourceName (APIResources apiResourceList) with
          | Some gvr => Some gvr
          | None => scanLists resourceName lists'
          end
      end
  end.

(** Strategy 5: the discovery snapshot and the scan of it. *)
Definition aliasScan (resourceName : string)
  : Prog (GroupVersionResource * option error) :=
  '(apiResourceLists, err) <- call ServerPreferredResources ;;
  match err with
  | Some e =>
      ret (zeroGVR,
           Some (Errorf "failed to find resource %q: %w" [AStr resourceName; AErr e]))
  | None =>
      match scanLists resourceName apiResourceLists with
      | Some gvr => ret (gvr, None)
      | None =>
          ret (zeroGVR,
               Some (Errorf "failed to find resource %q: resource not found in any API group"
                       [AStr resourceName]))
      end
  end.

(** Strategies 2 to 5, for an identifier that is not fully qualified. *)
Definition lookup (resourceName : string)
  : Prog (GroupVersionResource * option error) :=
  '(gvr, err) <- call (ResourceFor (mkGVR "" "" resourceName)) ;;
  if isNil err then ret (gvr, None)
  else
    out <- call (RESTMappings (mkGK "" resourceName)) ;;
    match firstMapping out with
    | Some gvr => ret (gvr, None)
    | None =>
        match kindVariations resourceName with
        | None => Fault
        | Some kinds =>
            found <- tryKinds kinds ;;
            match found with
            | Some gvr => ret (gvr, None)
            | None => aliasScan resourceName
            end
        end
    end.

(** [func (k *KubeGet) findGVR(resourceName string)
      (schema.GroupVersionResource, error)] *)
Definition findGVR (resourceName : string)
  : Prog (GroupVersionResource * option error) :=
  if String.eqb resourceName "" then
    ret (zeroGVR, Some (Errorf "resource name cannot be empty" []))
  else
    match fullyQualified resourceName with
    | Some (Some gvr) => ret (gvr, None)
    | Some None => Fault
    | None => lookup resourceName
    end.

(** [func (k *KubeGet) Get(ctx, resourceName, namespace string)
      (schema.GroupVersionResource, *unstructured.UnstructuredList, error)] *)
Definition Get (resourceName namespace : string)
  : Prog (GroupVersionResource * option UnstructuredList * option error) :=
  '(gvr, err) <- findGVR resourceName ;;
  match err with
  | Some e =>
      ret (zeroGVR, None,
           Some (Errorf "failed to find resource %q: %w" [AStr resourceName; AErr e]))
  | None =>
      let resourceInterface :=
        if negb (String.eqb namespace "") then List gvr (Some namespace)
        else List gvr None in
      '(list, err) <- call resourceInterface ;;
      match err with
      | Some e =>
          ret (gvr, None, Some (Errorf "failed to list resources: %w" [AErr e]))
      | None => ret (gvr, list, None)
      end
  end.

End Resolver.

(** ** The error taxonomy of the resolver and the facade *)

(** [InvalidInput]: the identifier is empty. *)
Definition InvalidInput : error := Errorf "resource name cannot be empty" [].

(** [NotFound]: no strategy matched; carries the identifier. *)
Definition NotFound (resourceName : string) : error :=
  Errorf "failed to find resource %q: resource not found in any API group"
    [AStr resourceName].

(** A failure wrapped with the identifier it was looking for: the
    [ProviderError] of strategy 5 and the resolution error of [Get]. *)
Definition FindFailed (resourceName : string) (cause : error) : error :=
  Errorf "failed to find resource %q: %w" [AStr resourceName; AErr cause].

(** [ListError]: the listing failed after a successful resolution. *)
Definition ListFailed (cause : error) : error :=
  Errorf "failed to list resources: %w" [AErr cause].

Definition gvrEqb (a b : GroupVersionResource) : bool :=
  String.eqb (gvrGroup a) (gvrGroup b)
  && String.eqb (gvrVersion a) (gvrVersion b)
  && String.eqb (gvrResource a) (gvrResource b).

(** The outermost wrapper of [e] has the identifier among its operands. *)
Definition carriesIdentifier (e : error) (resourceName : string) : bool :=
  existsb (fun o => match o with AStr s => String.eqb s resourceName | _ => false end)
    (operandsOf e).

(** The outermost wrapper of [e] has the descriptor among its operands. *)
Definition carriesDescriptor (e : error) (gvr : GroupVersionResource) : bool :=
  existsb (fun o => match o with AGvr g => gvrEqb g gvr | _ => false end)
    (operandsOf e).

(** [text] occurs somewhere in the error: in a format string, a message
    or an operand, at any depth of wrapping. *)
Fixpoint occursIn (text : string) (e : error) : bool :=
  match e with
  | ErrorString msg => Contains msg text
  | Errorf format operands =>
      Contains format text
      || (fix inOperands (ops : list Operand) : bool :=
            match ops with
            | [] => false
            | AStr s :: ops' => Contains s text || inOperands ops'
            | AGvr g :: ops' =>
                Contains (gvrGroup g) text || Contains (gvrVersion g) text
                || Contains (gvrResource g) text || inOperands ops'
            | AErr e' :: ops' => occursIn text e' || inOperands ops'
            end) operands
  end.

(** ** The exhaustive scan, as enumerations of entries *)

(** A Kind lookup that does not win: an error or no mapping. *)
Definition isMiss (out : list RESTMapping * option error) : Prop :=
  match out with
  | (m :: _, None) => False
  | _ => True
  end.

(** The Kind lookups made for [kinds], paired with their results. *)
Definition kindEvents (kinds : list string)
    (outs : list (list RESTMapping * option error)) : list Event :=
  map (fun ko => EvRESTMappings (mkGK "" (fst ko)) (snd ko)) (combine kinds outs).

(** Every entry the snapshot advertises, in the snapshot's order, with
    the group-version string of its list. *)
Fixpoint advertisedEntries (snapshot : list (option APIResourceList))
  : list (string * APIResource) :=
  match snapshot with
  | [] => []
  | None :: rest => advertisedEntries rest
  | Some l :: rest =>
      map (fun r => (GroupVersionString l, r)) (APIResources l)
      ++ advertisedEntries rest
  end.

(** The entries of the lists whose group-version parses, in the
    snapshot's order, with the parsed group-version. *)
Fixpoint parsedEntries (snapshot : list (option APIResourceList))
  : list (GroupVersion * APIResource) :=
  match snapshot with
  | [] => []
  | None :: rest => parsedEntries rest
  | Some l :: rest =>
      match ParseGroupVersion (GroupVersionString l) with
      | (gv, None) => map (fun r => (gv, r)) (APIResources l) ++ parsedEntries rest
      | (_, Some _) => parsedEntries rest
      end
  end.

(** An entry matches the identifier: the plural name exactly, the Kind
    up to case, or one of the short names exactly. *)
Definition entryMatches {caseOps : CaseOps} (resourceName : string)
    (r : APIResource) : bool :=
  String.eqb (Name r) resourceName
  || EqualFold (Kind r) resourceName
  || existsb (fun shortName => String.eqb shortName resourceName) (ShortNames r).

(** ** Candidate spellings, in words *)

(** The first byte upper-cased, the remainder unchanged. *)
Definition upperFirst (s : string) : string :=
  match s with
  | EmptyString => EmptyString
  | String b rest => String (upperByte b) rest
  end.

(** The first byte upper-cased, the remainder lower-cased. *)
Definition upperFirstLowerRest (s : string) : string :=
  match s with
  | EmptyString => EmptyString
  | String b rest => String (upperByte b) (mapBytes lowerByte rest)
  end.

(** No byte of [s] separates words. *)
Fixpoint oneWord (s : string) : bool :=
  match s with
  | EmptyString => true
  | String b rest => negb (isSeparator b) && oneWord rest
  end.

(** The byte of [s] before index [i]; [start] before the first. *)
Definition byteBeforeFrom (start : ascii) (s : string) (i : nat) : ascii :=
  match i with
  | O => start
  | S j => match String.get j s with Some b => b | None => start end
  end.

(** A word starts at the beginning of the string and after a separator. *)
Definition startsWord (s : string) (i : nat) : bool :=
  isSeparator (byteBeforeFrom " "%char s i).

(** The four candidates as the specification words them: unchanged,
    first letter upper-cased, all upper-cased, first letter upper-cased
    and the remainder lower-cased. *)
Definition wordedVariations (s : string) : list string :=
  [ s; upperFirst s; mapBytes upperByte s; upperFirstLowerRest s ].

(** ** A cluster for concrete runs

    A stand-in for the collaborators: tables for the REST mapper, a fixed
    discovery snapshot and a fixed listing; the state counts the calls. *)
Record FakeCluster : Type := mkFakeCluster {
  fakeResources : list (string * GroupVersionResource);
  fakeKinds : list (string * list RESTMapping);
  fakeDiscovery : list (option APIResourceList) * option error;
  fakeListing : option UnstructuredList * option error
}.

Fixpoint assoc {V : Type} (key : string) (table : list (string * V)) : option V :=
  match table with
  | [] => None
  | (k, v) :: table' => if String.eqb k key then Some v else assoc key table'
  end.

Definition fakeKubeGet (c : FakeCluster) : KubeGet nat := {|
  restMapper_ResourceFor := fun input n =>
    (match assoc (gvrResource input) (fakeResources c) with
     | Some gvr => (gvr, None)
     | None => (zeroGVR, Some (ErrorString "no matches for resource"))
     end, S n);
  restMapper_RESTMappings := fun gk n =>
    (match assoc (gkKind gk) (fakeKinds c) with
     | Some mappings => (mappings, None)
     | None => ([], Some (ErrorString "no matches for kind"))
     end, S n);
  discoveryClient_ServerPreferredResources := fun n => (fakeDiscovery c, S n);
  dynamicClient_List := fun _ _ n => (fakeListing c, S n)
|}.

(** An empty cluster whose discovery and listing both fail. *)
Definition brokenCluster : FakeCluster :=
  mkFakeCluster [] []
    ([], Some (ErrorString "connection refused"))
    (None, Some (ErrorString "forbidden")).

Definition podsGVR : GroupVersionResource := mkGVR "" "v1" "pods".

Definition deploymentsGVR : GroupVersionResource := mkGVR "apps" "v1" "deployments".

Definition dspaGVR : GroupVersionResource :=
  mkGVR "datasciencepipelinesapplications.opendatahub.io" "v1"
    "datasciencepipelinesapplications".

(** A cluster that knows pods and deployments by plural name and by
    Kind, and advertises a custom resource with the short name [dspa]. *)
Definition sampleCluster : FakeCluster :=
  mkFakeCluster
    [("pods", podsGVR); ("deployments", deploymentsGVR)]
    [("Pod", [mkRESTMapping podsGVR (mkGVK "" "v1" "Pod")]);
     ("Deployment", [mkRESTMapping deploymentsGVR (mkGVK "apps" "v1" "Deployment")])]
    ([ None;
       Some (mkAPIResourceList "v1"
               [mkAPIResource "pods" "Pod" ["po"]]);
       Some (mkAPIResourceList "datasciencepipelinesapplications.opendatahub.io/v1"
               [mkAPIResource "datasciencepipelinesapplications"
                  "DataSciencePipelinesApplication" ["dspa"]]) ],
     None)
    (Some (mkUnstructuredList [mkUnstructured "web-0" "default"]), None).

(** A snapshot whose only list has a group-version that does not parse. *)
Definition malformedSnapshot : list (option APIResourceList) :=
  [ Some (mkAPIResourceList "example.io/v1/extra"
            [mkAPIResource "widgets" "Widget" ["wd"]]) ].

Definition malformedCluster : FakeCluster :=
  mkFakeCluster [] [] (malformedSnapshot, None) (None, None).

(** The sample cluster with a dynamic client that refuses to list. *)
Definition forbiddenCluster : FakeCluster :=
  mkFakeCluster (fakeResources sampleCluster) (fakeKinds sampleCluster)
    (fakeDiscovery sampleCluster) (None, Some (ErrorString "forbidden")).

(** The namespace restriction of the listing call [Get] makes. *)
Definition scopeOf (namespace : string) : option string :=
  if negb (String.eqb namespace "") then Some namespace else None.

(** A snapshot in which a list that does not parse comes before one
    that does, both advertising a resource named [widgets]. *)
Definition mixedSnapshot : list (option APIResourceList) :=
  [ Some (mkAPIResourceList "example.io/v1/extra"
            [mkAPIResource "widgets" "Widget" ["wd"]]);
    None;
    Some (mkAPIResourceList "example.io/v1"
            [mkAPIResource "gadgets" "Gadget" [];
             mkAPIResource "widgets" "WIDGET" ["wd"; "wdg"]]) ].

(** The descriptor of an entry under a parsed group-version. *)
Definition descriptorOf (entry : GroupVersion * APIResource) : GroupVersionResource :=
  WithResource (fst entry) (Name (snd entry)).

(** ** The outcomes of a resolution

    [Resolution resourceName result events]: the result of [findGVR] and
    the calls it made to get there, one case for each way the function
    returns. *)
Inductive Resolution {caseOps : CaseOps} (resourceName : string)
  : GroupVersionResource * option error -> list Event -> Prop :=
| ResolvedEmpty :
    resourceName = "" ->
    Resolution resourceName (zeroGVR, Some InvalidInput) []
| ResolvedSyntactic :
    resourceName <> "" ->
    3 <= List.length (Split resourceName ".") ->
    Resolution resourceName
      (mkGVR (Join (skipn 2 (Split resourceName ".")) ".")
         (nth 1 (Split resourceName ".") "") (nth 0 (Split resourceName ".") ""),
       None) []
| ResolvedDirect (gvr : GroupVersionResource) :
    resourceName <> "" ->
    List.length (Split resourceName ".") < 3 ->
    Resolution resourceName (gvr, None)
      [EvResourceFor (mkGVR "" "" resourceName) (gvr, None)]
| ResolvedByKind (gvr1 gvr : GroupVersionResource) (cause1 : error)
    (out2 : list RESTMapping * option error) :
    resourceName <> "" ->
    List.length (Split resourceName ".") < 3 ->
    firstMapping out2 = Some gvr ->
    Resolution resourceName (gvr, None)
      [ EvResourceFor (mkGVR "" "" resourceName) (gvr1, Some cause1);
        EvRESTMappings (mkGK "" resourceName) out2 ]
| ResolvedByCandidate (gvr1 gvr : GroupVersionResource) (cause1 : error)
    (out2 hit : list RESTMapping * option error) (kinds : list string)
    (misses : list (list RESTMapping * option error)) :
    resourceName <> "" ->
    List.length (Split resourceName ".") < 3 ->
    isMiss out2 ->
    kindVariations resourceName = Some kinds ->
    Forall isMiss misses ->
    List.length misses < List.length kinds ->
    firstMapping hit = Some gvr ->
    Resolution resourceName (gvr, None)
      (EvResourceFor (mkGVR "" "" resourceName) (gvr1, Some cause1)
       :: EvRESTMappings (mkGK "" resourceName) out2
       :: kindEvents kinds (misses ++ [hit]))
| ResolvedByDiscovery (gvr1 : GroupVersionResource) (cause1 : error)
    (out2 : list RESTMapping * option error) (kinds : list string)
    (outs : list (list RESTMapping * option error))
    (snapshot : list (option APIResourceList) * option error) :
    resourceName <> "" ->
    List.length (Split resourceName ".") < 3 ->
    isMiss out2 ->
    kindVariations resourceName = Some kinds ->
    Forall isMiss outs ->
    List.length outs = List.length kinds ->
    Resolution resourceName
      match snd snapshot with
      | Some cause => (zeroGVR, Some (FindFailed resourceName cause))
      | None =>
          match scanLists resourceName (fst snapshot) with
          | Some gvr => (gvr, None)
          | None => (zeroGVR, Some (NotFound resourceName))
          end
      end
      (EvResourceFor (mkGVR "" "" resourceName) (gvr1, Some cause1)
       :: EvRESTMappings (mkGK "" resourceName) out2
       :: kindEvents kinds outs
       ++ [EvServerPreferredResources snapshot]).

(** Kinds of calls in a trace. *)
Definition isListEvent (ev : Event) : bool :=
  match ev with
  | EvList _ _ _ => true
  | _ => false
  end.

Definition isDiscoveryEvent (ev : Event) : bool :=
  match ev with
  | EvServerPreferredResources _ => true
  | _ => false
  end.

Definition isResourceForEvent (ev : Event) : bool :=
  match ev with
  | EvResourceFor _ _ => true
  | _ => false
  end.

Definition isRESTMappingsEvent (ev : Event) : bool :=
  match ev with
  | EvRESTMappings _ _ => true
  | _ => false
  end.

Definition countEvents (f : Event -> bool) (evs : list Event) : nat :=
  List.length (filter f evs).

(** A list of the snapshot the scan looks into: not nil, with a
    group-version that parses. *)
Definition isScanned (l : option APIResourceList) : bool :=
  match l with
  | None => false
  | Some apiResourceList =>
      isNil (snd (ParseGroupVersion (GroupVersionString apiResourceList)))
  end.

(** A byte-wise rewriting that changes at most the case of each byte. *)
Inductive CaseVariant : string -> string -> Prop :=
| CaseVariantEmpty : CaseVariant "" ""
| CaseVariantByte (a b : ascii) (s t : string) :
    lowerByte a = lowerByte b -> isASCIIByte a = isASCIIByte b ->
    CaseVariant s t -> CaseVariant (String a s) (String b t).

(** ** [NewKubeGet]

    The configuration and the clients are values of client-go; the four
    constructors are taken as they are, the two that can fail returning
    their client with a possibly nil error. *)
Section Construction.

Variables Config DiscoveryClient CachedClient Mapper DynamicClient : Type.
Variable NewDiscoveryClientForConfig : Config -> DiscoveryClient * option error.
Variable NewMemCacheClient : DiscoveryClient -> CachedClient.
Variable NewDeferredDiscoveryRESTMapper : CachedClient -> Mapper.
Variable NewForConfig : Config -> DynamicClient * option error.

(** The three fields of the struct [KubeGet], as handles. *)
Record KubeGetClients : Type := mkKubeGetClients {
  restMapper : Mapper;
  dynamicClient : DynamicClient;
  discoveryClient : CachedClient
}.

(** [func NewKubeGet(config *rest.Config)], which returns a [*KubeGet]
    and an error; a nil pointer is [None]. *)
Definition NewKubeGet (config : option Config)
  : option KubeGetClients * option error :=
  match config with
  | None => (None, Some (Errorf "config cannot be nil" []))
  | Some cfg =>
      let (discovered, err) := NewDiscoveryClientForConfig cfg in
      match err with
      | Some e =>
          (None, Some (Errorf "failed to create discovery client: %w" [AErr e]))
      | None =>
          let cachedClient := NewMemCacheClient discovered in
          let mapper := NewDeferredDiscoveryRESTMapper cachedClient in
          let (dynamic, err) := NewForConfig cfg in
          match err with
          | Some e =>
              (None, Some (Errorf "failed to create dynamic client: %w" [AErr e]))
          | None =>
              (Some (mkKubeGetClients mapper dynamic cachedClient), None)
          end
      end
  end.

End Construction.

(** ** The helpers of the test file

    The helpers re-implement, by hand, the string handling of [findGVR].
    A [for _, r := range s] loop sees the code points of [s]: [runes]
    decodes UTF-8 as the loop does, an invalid byte giving [RuneError]
    and advancing by one byte; [stringOfRune] is the conversion
    [string(r)]. *)
Definition RuneError : N := 65533.

Definition byteIn (lo hi : N) (b : ascii) : bool :=
  ((lo <=? N_of_ascii b) && (N_of_ascii b <=? hi))%N.

(** For a byte that starts a sequence of several bytes: the length of the
    sequence and the range accepted for its second byte. *)
Definition leadingByte (b : ascii) : option (nat * N * N) :=
  let n := N_of_ascii b in
  if (n <? 194)%N then None
  else if (n <=? 223)%N then Some (2, 128%N, 191%N)
  else if (n =? 224)%N then Some (3, 160%N, 191%N)
  else if (n <=? 236)%N then Some (3, 128%N, 191%N)
  else if (n =? 237)%N then Some (3, 128%N, 159%N)
  else if (n <=? 239)%N then Some (3, 128%N, 191%N)
  else if (n =? 240)%N then Some (4, 144%N, 191%N)
  else if (n <=? 243)%N then Some (4, 128%N, 191%N)
  else if (n =? 244)%N then Some (4, 128%N, 143%N)
  else None.

Definition lowBits (bits : N) (b : ascii) : N := N.land (N_of_ascii b) bits.

Fixpoint runes (s : string) : list N :=
  match s with
  | EmptyString => []
  | String b0 s1 =>
      if (N_of_ascii b0 <? 128)%N then N_of_ascii b0 :: runes s1
      else
        match leadingByte b0, s1 with
        | Some (size, lo, hi), String b1 s2 =>
            if negb (byteIn lo hi b1) then RuneError :: runes s1
            else if Nat.leb size 2 then
              (lowBits 31 b0 * 64 + lowBits 63 b1)%N :: runes s2
            else
              match s2 with
              | String b2 s3 =>
                  if negb (byteIn 128 191 b2) then RuneError :: runes s1
                  else if Nat.leb size 3 then
                    (lowBits 15 b0 * 4096 + lowBits 63 b1 * 64 + lowBits 63 b2)%N
                    :: runes s3
                  else
                    match s3 with
                    | String b3 s4 =>
                        if negb (byteIn 128 191 b3) then RuneError :: runes s1
                        else
                          (lowBits 7 b0 * 262144 + lowBits 63 b1 * 4096
                           + lowBits 63 b2 * 64 + lowBits 63 b3)%N
                          :: runes s4
                    | EmptyString => RuneError :: runes s1
                    end
              | EmptyString => RuneError :: runes s1
              end
        | _, _ => RuneError :: runes s1
        end
  end.

Definition byteOfN (n : N) : string := String (ascii_of_N n) "".

(** [string(r)] for a rune [r]: its UTF-8 encoding, a surrogate or a
    value past U+10FFFF giving the encoding of [RuneError]. *)
Definition stringOfRune (r : N) : string :=
  if (r <=? 127)%N then byteOfN r
  else if (r <=? 2047)%N then
    String.append (byteOfN (192 + r / 64)) (byteOfN (128 + r mod 64))
  else if (1114111 <? r)%N || ((55296 <=? r) && (r <=? 57343))%N then
    String.append (byteOfN 239) (String.append (byteOfN 191) (byteOfN 189))
  else if (r <=? 65535)%N then
    String.append (byteOfN (224 + r / 4096))
      (String.append (byteOfN (128 + (r / 64) mod 64)) (byteOfN (128 + r mod 64)))
  else
    String.append (byteOfN (240 + r / 262144))
      (String.append (byteOfN (128 + (r / 4096) mod 64))
         (String.append (byteOfN (128 + (r / 64) mod 64)) (byteOfN (128 + r mod 64)))).

(** [func toUpper(s string) string] *)
Definition toUpper (s : string) : string :=
  fold_left
    (fun result r =>
       if ((97 <=? r) && (r <=? 122))%N
       then String.append result (stringOfRune (r - 32))
       else String.append result (stringOfRune r))
    (runes s) "".

(** [func toLower(s string) string] *)
Definition toLower (s : string) : string :=
  fold_left
    (fun result r =>
       if ((65 <=? r) && (r <=? 90))%N
       then String.append result (stringOfRune (r + 32))
       else String.append result (stringOfRune r))
    (runes s) "".

(** The inner loop of [containsString], from index [j] with [n] bytes of
    [substr] left to compare: [None] is an index out of range. *)
Fixpoint matchesAt (s substr : string) (i j n : nat) : option bool :=
  match n with
  | O => Some true
  | S n' =>
      match byteAt s (i + j), byteAt substr j with
      | Some a, Some b =>
          if negb (Ascii.eqb a b) then Some false
          else matchesAt s substr i (S j) n'
      | _, _ => None
      end
  end.

(** The outer loop of [containsString], from index [i] with [n]
    positions left to try. *)
Fixpoint searchFrom (s substr : string) (i n : nat) : option bool :=
  match n with
  | O => Some false
  | S n' =>
      match matchesAt s substr i 0 (String.length substr) with
      | None => None
      | Some true => Some true
      | Some false => searchFrom s substr (S i) n'
      end
  end.

(** [func containsString(s, substr string) bool] *)
Definition containsString (s substr : string) : option bool :=
  if Nat.eqb (String.length substr) 0 then Some true
  else if Nat.ltb (String.length s) (String.length substr) then Some false
  else searchFrom s substr 0 (String.length s - String.length substr + 1).

(** One turn of the loop of [splitResourceName] on the rune [r]. *)
Definition splitStep (state : list string * string) (r : N) : list string * string :=
  let (parts, current) := state in
  if (r =? 46)%N then
    if negb (String.eqb current "") then (parts ++ [current], "")
    else (parts, current)
  else (parts, String.append current (stringOfRune r)).

(** [func splitResourceName(resourceName string) []string] *)
Definition splitResourceName (resourceName : string) : option (list string) :=
  match containsString resourceName "." with
  | None => None
  | Some false => Some [resourceName]
  | Some true =>
      let (parts, current) := fold_left splitStep (runes resourceName) ([], "") in
      if negb (String.eqb current "") then Some (parts ++ [current])
      else Some parts
  end.

(** One turn of the loop over [groupParts], with the index [i]. *)
Definition groupStep (state : nat * string) (part : string) : nat * string :=
  let (i, group) := state in
  (S i, String.append (if Nat.ltb 0 i then String.append group "." else group) part).

(** [func parseFullyQualifiedResource(parts []string)
      schema.GroupVersionResource] *)
Definition parseFullyQualifiedResource (parts : list string)
  : option GroupVersionResource :=
  if Nat.ltb (List.length parts) 3 then Some zeroGVR
  else
    match elemAt parts 0, elemAt parts 1 with
    | Some resourceOnly, Some version =>
        let group :=
          if Nat.ltb 2 (List.length parts) then
            match elemsFrom parts 2 with
            | Some groupParts => Some (snd (fold_left groupStep groupParts (0, "")))
            | None => None
            end
          else Some "" in
        match group with
        | Some g => Some (mkGVR g version resourceOnly)
        | None => None
        end
    | _, _ => None
    end.

(** [func capitalizeFirst(s string) string] *)
Definition capitalizeFirst (s : string) : option string :=
  if Nat.eqb (String.length s) 0 then Some s
  else
    match byteAt s 0 with
    | None => None
    | Some b =>
        let first := stringOfByte b in
        let rest := if Nat.ltb 1 (String.length s) then sliceFrom s 1 else Some "" in
        match rest with
        | Some rest' => Some (String.append (toUpper first) rest')
        | None => None
        end
    end.

(** [func generateKindVariations(resourceName string) []string] *)
Definition generateKindVariations (resourceName : string) : option (list string) :=
  if Nat.eqb (String.length resourceName) 0 then Some [resourceName]
  else
    match capitalizeFirst resourceName with
    | Some capitalized =>
        Some [resourceName; capitalized; toUpper resourceName; capitalized]
    | None => None
    end.

(** A piece that is not empty. *)
Definition nonEmpty (piece : string) : bool := negb (String.eqb piece "").

(** Some byte of [s] satisfies [f]. *)
Fixpoint anyByte (f : ascii -> bool) (s : string) : bool :=
  match s with
  | EmptyString => false
  | String b s' => f b || anyByte f s'
  end.

(** * Properties *)

Unset Implicit Arguments.

(** ** Concrete evaluations *)

Example Split_core_group : Split "pods.v1." "." = ["pods"; "v1"; ""].
Proof. reflexivity. Qed.

Example Split_no_separator : Split "pods" "." = ["pods"].
Proof. reflexivity. Qed.

Example Split_long_separator : Split "a--b-c----d" "--" = ["a"; "b-c"; ""; "d"].
Proof. reflexivity. Qed.

Example ParseGroupVersion_group : ParseGroupVersion "apps/v1" = (mkGV "apps" "v1", None).
Proof. reflexivity. Qed.

Example ParseGroupVersion_core : ParseGroupVersion "v1" = (mkGV "" "v1", None).
Proof. reflexivity. Qed.

Example ParseGroupVersion_slash : ParseGroupVersion "/" = (zeroGV, None).
Proof. reflexivity. Qed.

Example ParseGroupVersion_two_slashes :
  ParseGroupVersion "a/b/c"
  = (zeroGV, Some (Errorf "unexpected GroupVersion string: %v" [AStr "a/b/c"])).
Proof. reflexivity. Qed.

Example stringOfByte_high :
  stringOfByte (ascii_of_nat 233) = String (ascii_of_nat 195) (String (ascii_of_nat 169) "").
Proof. reflexivity. Qed.

Example Title_words : Title "replicaSet_x y9z" = "ReplicaSet_x Y9z".
Proof. reflexivity. Qed.

Example EqualFold_case : EqualFold "ReplicaSet" "REPLICASET" = true.
Proof. reflexivity. Qed.

Example EqualFold_off_by_case_bit : EqualFold "@" "`" = false.
Proof. reflexivity. Qed.

Example findGVR_deployments :
  findGVR "deployments.v1.apps" = Ret (mkGVR "apps" "v1" "deployments", None).
Proof. reflexivity. Qed.

Example findGVR_long_group :
  findGVR "foo.v1.example.opendatahub.io"
  = Ret (mkGVR "example.opendatahub.io" "v1" "foo", None).
Proof. reflexivity. Qed.

Example findGVR_kind_on_sample :
  run (fakeKubeGet sampleCluster) (findGVR "Deployment") 0
  = (Some (deploymentsGVR, None), 2,
     [ EvResourceFor (mkGVR "" "" "Deployment")
         (zeroGVR, Some (ErrorString "no matches for resource"));
       EvRESTMappings (mkGK "" "Deployment")
         ([mkRESTMapping deploymentsGVR (mkGVK "apps" "v1" "Deployment")], None) ]).
Proof. reflexivity. Qed.

Example Get_on_sample :
  run (fakeKubeGet sampleCluster) (Get "po" "") 0
  = (Some (podsGVR, Some (mkUnstructuredList [mkUnstructured "web-0" "default"]), None),
     8,
     [ EvResourceFor (mkGVR "" "" "po")
         (zeroGVR, Some (ErrorString "no matches for resource"));
       EvRESTMappings (mkGK "" "po") ([], Some (ErrorString "no matches for kind"));
       EvRESTMappings (mkGK "" "po") ([], Some (ErrorString "no matches for kind"));
       EvRESTMappings (mkGK "" "Po") ([], Some (ErrorString "no matches for kind"));
       EvRESTMappings (mkGK "" "PO") ([], Some (ErrorString "no matches for kind"));
       EvRESTMappings (mkGK "" "Po") ([], Some (ErrorString "no matches for kind"));
       EvServerPreferredResources (fakeDiscovery sampleCluster);
       EvList podsGVR None (fakeListing sampleCluster) ]).
Proof. reflexivity. Qed.


(** ** Running computations *)

Lemma run_bind : forall (W A B : Type) (k : KubeGet W) (p : Prog A)
    (f : A -> Prog B) (w : W),
  run k (bind p f) w =
  match run k p w with
  | (Some a, w1, evs1) =>
      let '(r, w2, evs2) := run k (f a) w1 in (r, w2, evs1 ++ evs2)
  | (None, w1, evs1) => (None, w1, evs1)
  end.
Proof.
  intros W A B k p f. induction p as [a | | X c cont IH]; intro w; simpl.
  - destruct (run k (f a) w) as [[r w2] evs2]. reflexivity.
  - reflexivity.
  - destruct (perform k c w) as [x w1]. rewrite IH.
    destruct (run k (cont x) w1) as [[[a |] w2] evs1].
    + destruct (run k (f a) w2) as [[r w3] evs2]. reflexivity.
    + reflexivity.
Qed.

Lemma run_call_bind : forall (W X B : Type) (k : KubeGet W) (c : Call X)
    (f : X -> Prog B) (w : W),
  run k (bind (call c) f) w =
  let (x, w1) := perform k c w in
  let '(r, w2, evs) := run k (f x) w1 in (r, w2, eventOf c x :: evs).
Proof. intros. reflexivity. Qed.

(** ** Splitting on dots *)

Lemma Split_without_dot : forall s : string,
  Contains s "." = false -> Split s "." = [s].
Proof.
  unfold Split. induction s as [| a s IH]; intro H.
  - reflexivity.
  - simpl in H. apply orb_false_iff in H. destruct H as [Ha Hs].
    rewrite andb_true_r in Ha.
    simpl. rewrite andb_true_r, Ha. rewrite (IH Hs). reflexivity.
Qed.

Lemma three_parts_have_dot : forall s : string,
  3 <= List.length (Split s ".") -> Contains s "." = true.
Proof.
  intros s H. destruct (Contains s ".") eqn:E; [reflexivity |].
  rewrite (Split_without_dot s E) in H. simpl in H. lia.
Qed.

Lemma three_parts_not_empty : forall s : string,
  3 <= List.length (Split s ".") -> s <> "".
Proof. intros s H E. subst s. simpl in H. lia. Qed.

Lemma fullyQualified_three_parts : forall s : string,
  3 <= List.length (Split s ".") ->
  fullyQualified s =
  Some (Some (mkGVR (Join (skipn 2 (Split s ".")) ".")
                (nth 1 (Split s ".") "") (nth 0 (Split s ".") ""))).
Proof.
  intros s H. unfold fullyQualified.
  rewrite (three_parts_have_dot s H).
  destruct (Split s ".") as [| p0 [| p1 [| p2 rest]]]; simpl in H; try lia.
  reflexivity.
Qed.

Lemma fullyQualified_few_parts : forall s : string,
  List.length (Split s ".") < 3 -> fullyQualified s = None.
Proof.
  intros s H. unfold fullyQualified.
  destruct (Contains s "."); [| reflexivity].
  destruct (Nat.leb_spec 3 (List.length (Split s "."))); [lia | reflexivity].
Qed.

Lemma fullyQualified_never_faults : forall s : string,
  fullyQualified s <> Some None.
Proof.
  intros s. destruct (Nat.le_gt_cases 3 (List.length (Split s "."))) as [H | H].
  - rewrite (fullyQualified_three_parts s H). discriminate.
  - rewrite (fullyQualified_few_parts s H). discriminate.
Qed.

Lemma eqb_empty_false : forall s : string, s <> "" -> String.eqb s "" = false.
Proof. intros s H. apply String.eqb_neq. exact H. Qed.

(** C1. An identifier with three or more dot-separated segments resolves
    without any collaborator call to the descriptor whose resource is
    segment 0, whose version is segment 1 and whose group is the remaining
    segments joined with dots, whatever the cluster holds; "pods.v1."
    resolves to the core group, version v1, resource pods. *)
Theorem fully_qualified_is_syntactic :
  (forall (caseOps : CaseOps) (resourceName : string),
     3 <= List.length (Split resourceName ".") ->
     let segments := Split resourceName "." in
     let descriptor :=
       mkGVR (Join (skipn 2 segments) ".") (nth 1 segments "") (nth 0 segments "") in
     findGVR resourceName = Ret (descriptor, None)
     /\ forall (W : Type) (k : KubeGet W) (w : W),
          run k (findGVR resourceName) w = (Some (descriptor, None), w, []))
  /\ (forall caseOps : CaseOps,
        findGVR "pods.v1." = Ret (mkGVR "" "v1" "pods", None)).
Proof.
  split.
  - intros caseOps resourceName H segments descriptor.
    assert (E : findGVR resourceName = Ret (descriptor, None)).
    { unfold findGVR.
      rewrite (eqb_empty_false _ (three_parts_not_empty resourceName H)).
      rewrite (fullyQualified_three_parts resourceName H). reflexivity. }
    split; [exact E |]. intros W k w. rewrite E. reflexivity.
  - intros caseOps. reflexivity.
Qed.

Lemma fully_qualified_is_syntactic_witness :
  3 <= List.length (Split "foo.v1.example.opendatahub.io" ".")
  /\ run (fakeKubeGet brokenCluster) (findGVR "foo.v1.example.opendatahub.io") 0
     = (Some (mkGVR "example.opendatahub.io" "v1" "foo", None), 0, []).
Proof.
  split.
  - vm_compute. lia.
  - apply (proj2 (proj1 fully_qualified_is_syntactic AsciiCase
                    "foo.v1.example.opendatahub.io" ltac:(vm_compute; lia))
             nat (fakeKubeGet brokenCluster) 0).
Defined.

(** C2. The empty identifier fails with [InvalidInput], and the failure
    is returned before any collaborator is called: the computation is a
    plain return, so a run on any collaborators makes no call and leaves
    their state as it was. *)
Theorem empty_identifier_is_invalid_input :
  forall caseOps : CaseOps,
    findGVR "" = Ret (zeroGVR, Some InvalidInput)
    /\ forall (W : Type) (k : KubeGet W) (w : W),
         run k (findGVR "") w = (Some (zeroGVR, Some InvalidInput), w, []).
Proof.
  intros caseOps. split; [reflexivity |]. intros W k w. reflexivity.
Qed.

(** ** The Kind lookups *)

Lemma firstMapping_None_isMiss : forall out,
  firstMapping out = None -> isMiss out.
Proof.
  intros [[| m ms] [e |]]; simpl; intro H; try exact I. discriminate H.
Qed.

Lemma isMiss_firstMapping_None : forall out,
  isMiss out -> firstMapping out = None.
Proof.
  intros [[| m ms] [e |]]; simpl; intro H; try reflexivity. contradiction.
Qed.

Lemma kindEvents_cons : forall kind kinds out outs,
  kindEvents (kind :: kinds) (out :: outs) =
  EvRESTMappings (mkGK "" kind) out :: kindEvents kinds outs.
Proof. reflexivity. Qed.

Lemma kindEvents_nil : forall kinds, kindEvents kinds [] = [].
Proof. intros [| kind kinds]; reflexivity. Qed.

Section Runs.

Context {caseOps : CaseOps} {W : Type} (k : KubeGet W).

(** The loop over the candidate Kinds asks for them in order and stops at
    the first lookup that returns, without error, at least one mapping. *)
Lemma run_tryKinds : forall (kinds : list string) (w : W),
  exists outs w' r,
    run k (tryKinds kinds) w = (Some r, w', kindEvents kinds outs)
    /\ List.length outs <= List.length kinds
    /\ match r with
       | None => List.length outs = List.length kinds /\ Forall isMiss outs
       | Some gvr =>
           exists misses hit,
             outs = misses ++ [hit] /\ Forall isMiss misses
             /\ firstMapping hit = Some gvr
       end.
Proof.
  induction kinds as [| kind kinds IH]; intro w.
  - exists [], w, None.
    split; [reflexivity |]. split; [simpl; lia |]. split; [reflexivity | constructor].
  - change (tryKinds (kind :: kinds))
      with (bind (call (RESTMappings (mkGK "" kind)))
              (fun out => match firstMapping out with
                          | Some gvr => ret (Some gvr)
                          | None => tryKinds kinds
                          end)).
    rewrite run_call_bind.
    destruct (perform k (RESTMappings (mkGK "" kind)) w) as [out w1].
    destruct (firstMapping out) as [gvr |] eqn:E.
    + exists [out], w1, (Some gvr).
      split; [rewrite kindEvents_cons, kindEvents_nil; reflexivity |]. split; [simpl; lia |].
      exists [], out. split; [reflexivity |]. split; [constructor | exact E].
    + destruct (IH w1) as (outs & w' & r & Hrun & Hlen & Hr).
      exists (out :: outs), w', r. rewrite Hrun.
      split; [reflexivity |]. split; [simpl; lia |].
      destruct r as [gvr |].
      * destruct Hr as (misses & hit & -> & Hm & Hh).
        exists (out :: misses), hit.
        split; [reflexivity |]. split; [| exact Hh].
        constructor; [apply firstMapping_None_isMiss; exact E | exact Hm].
      * destruct Hr as [Hl Hm]. split; [simpl; lia |].
        constructor; [apply firstMapping_None_isMiss; exact E | exact Hm].
Qed.

Lemma kindVariations_nonempty : forall (b : ascii) (rest : string),
  kindVariations (String b rest) =
  Some [ String b rest; Title (String b rest); ToUpper (String b rest);
         String.append (ToUpper (stringOfByte b)) (ToLower rest) ].
Proof.
  intros b rest. unfold kindVariations. simpl. destruct rest; reflexivity.
Qed.

(** The alias scan: one discovery call, whose failure is fatal. *)
Lemma run_aliasScan : forall (resourceName : string) (w : W),
  run k (aliasScan resourceName) w =
  let (out, w1) := discoveryClient_ServerPreferredResources k w in
  (Some match snd out with
        | Some e => (zeroGVR, Some (FindFailed resourceName e))
        | None =>
            match scanLists resourceName (fst out) with
            | Some gvr => (gvr, None)
            | None => (zeroGVR, Some (NotFound resourceName))
            end
        end,
   w1, [EvServerPreferredResources out]).
Proof.
  intros resourceName w. unfold aliasScan. rewrite run_call_bind. simpl.
  destruct (discoveryClient_ServerPreferredResources k w) as [[lists [e |]] w1];
    simpl; [reflexivity |].
  destruct (scanLists resourceName lists); reflexivity.
Qed.

(** Strategies 2 to 5, call by call. *)
Lemma run_lookup : forall (resourceName : string) (w : W),
  run k (lookup resourceName) w =
  let (out1, w1) := restMapper_ResourceFor k (mkGVR "" "" resourceName) w in
  let ev1 := EvResourceFor (mkGVR "" "" resourceName) out1 in
  if isNil (snd out1) then (Some (fst out1, None), w1, [ev1])
  else
    let (out2, w2) := restMapper_RESTMappings k (mkGK "" resourceName) w1 in
    let ev2 := EvRESTMappings (mkGK "" resourceName) out2 in
    match firstMapping out2 with
    | Some gvr => (Some (gvr, None), w2, [ev1; ev2])
    | None =>
        match kindVariations resourceName with
        | None => (None, w2, [ev1; ev2])
        | Some kinds =>
            let '(found, w3, evs3) := run k (tryKinds kinds) w2 in
            match found with
            | None => (None, w3, ev1 :: ev2 :: evs3)
            | Some (Some gvr) => (Some (gvr, None), w3, ev1 :: ev2 :: evs3)
            | Some None =>
                let '(r, w4, evs4) := run k (aliasScan resourceName) w3 in
                (r, w4, ev1 :: ev2 :: evs3 ++ evs4)
            end
        end
    end.
Proof.
  intros resourceName w. unfold lookup. rewrite run_call_bind. simpl perform.
  destruct (restMapper_ResourceFor k (mkGVR "" "" resourceName) w)
    as [[gvr1 [e1 |]] w1]; simpl isNil; cbv iota; [| reflexivity].
  rewrite run_call_bind. simpl perform.
  destruct (restMapper_RESTMappings k (mkGK "" resourceName) w1) as [out2 w2].
  destruct (firstMapping out2) as [gvr |]; [reflexivity |].
  destruct (kindVariations resourceName) as [kinds |]; [| reflexivity].
  rewrite run_bind.
  destruct (run k (tryKinds kinds) w2) as [[[[gvr |] |] w3] evs3].
  - simpl. rewrite app_nil_r. reflexivity.
  - destruct (run k (aliasScan resourceName) w3) as [[r w4] evs4]. reflexivity.
  - reflexivity.
Qed.

Lemma run_findGVR_lookup : forall (resourceName : string) (w : W),
  resourceName <> "" ->
  List.length (Split resourceName ".") < 3 ->
  run k (findGVR resourceName) w = run k (lookup resourceName) w.
Proof.
  intros resourceName w Hne Hparts. unfold findGVR.
  rewrite (eqb_empty_false _ Hne), (fullyQualified_few_parts _ Hparts).
  reflexivity.
Qed.

End Runs.

(** C5. When the direct resource-name lookup succeeds, its descriptor is
    returned as it is and resolution stops there: the one call of the run
    is that lookup, so no Kind lookup and no discovery is made, whatever
    they would have answered. *)
Theorem direct_lookup_wins :
  forall (caseOps : CaseOps) (W : Type) (k : KubeGet W) (w w1 : W)
         (resourceName : string) (gvr : GroupVersionResource),
    resourceName <> "" ->
    List.length (Split resourceName ".") < 3 ->
    restMapper_ResourceFor k (mkGVR "" "" resourceName) w = ((gvr, None), w1) ->
    run k (findGVR resourceName) w
    = (Some (gvr, None), w1,
       [EvResourceFor (mkGVR "" "" resourceName) (gvr, None)]).
Proof.
  intros caseOps W k w w1 resourceName gvr Hne Hparts Hfor.
  rewrite (run_findGVR_lookup k resourceName w Hne Hparts).
  rewrite run_lookup, Hfor. reflexivity.
Qed.

Lemma direct_lookup_wins_witness :
  run (fakeKubeGet sampleCluster) (findGVR "pods") 0
  = (Some (podsGVR, None), 1,
     [EvResourceFor (mkGVR "" "" "pods") (podsGVR, None)]).
Proof.
  apply (direct_lookup_wins AsciiCase nat (fakeKubeGet sampleCluster) 0 1
           "pods" podsGVR).
  - discriminate.
  - vm_compute. lia.
  - reflexivity.
Defined.

(** C3. For a non-empty identifier, an error of the resolution is one of
    two: [NotFound] with the identifier, after a discovery that returned
    a snapshot, or the failure of the discovery call wrapped with the
    identifier.  When either is returned, every earlier strategy was
    tried in order and passed over: the direct lookup failed, the Kind
    lookup and each of the candidate Kinds missed, and none of their
    errors is what the caller gets. *)
Theorem resolution_errors :
  forall (caseOps : CaseOps) (W : Type) (k : KubeGet W) (w w' : W)
         (resourceName : string) (gvr : GroupVersionResource) (e : error)
         (evs : list Event),
    resourceName <> "" ->
    run k (findGVR resourceName) w = (Some (gvr, Some e), w', evs) ->
    exists gvr1 cause1 out2 kinds outs snapshot,
      kindVariations resourceName = Some kinds
      /\ isMiss out2
      /\ List.length outs = List.length kinds
      /\ Forall isMiss outs
      /\ evs = EvResourceFor (mkGVR "" "" resourceName) (gvr1, Some cause1)
               :: EvRESTMappings (mkGK "" resourceName) out2
               :: kindEvents kinds outs
               ++ [EvServerPreferredResources snapshot]
      /\ gvr = zeroGVR
      /\ ((snd snapshot = None /\ e = NotFound resourceName)
          \/ (exists cause,
                snd snapshot = Some cause /\ e = FindFailed resourceName cause)).
Proof.
  intros caseOps W k w w' resourceName gvr e evs Hne Hrun.
  unfold findGVR in Hrun. rewrite (eqb_empty_false _ Hne) in Hrun.
  destruct (fullyQualified resourceName) as [[g |] |];
    [discriminate Hrun | discriminate Hrun |].
  rewrite run_lookup in Hrun.
  destruct (restMapper_ResourceFor k (mkGVR "" "" resourceName) w)
    as [[gvr1 [cause1 |]] w1]; cbn [snd fst isNil] in Hrun; cbv beta iota zeta in Hrun;
    [| discriminate Hrun].
  destruct (restMapper_RESTMappings k (mkGK "" resourceName) w1) as [out2 w2].
  destruct (firstMapping out2) as [g |] eqn:E2; [discriminate Hrun |].
  destruct (kindVariations resourceName) as [kinds |]; [| discriminate Hrun].
  destruct (run_tryKinds k kinds w2) as (outs & w3 & found & Hkinds & _ & Hfound).
  rewrite Hkinds in Hrun. cbv beta iota in Hrun.
  destruct found as [g |]; [discriminate Hrun |].
  destruct Hfound as [Hlen Hmiss].
  rewrite run_aliasScan in Hrun.
  destruct (discoveryClient_ServerPreferredResources k w3) as [snapshot w4].
  exists gvr1, cause1, out2, kinds, outs, snapshot.
  split; [reflexivity |].
  split; [apply firstMapping_None_isMiss; exact E2 |].
  split; [exact Hlen |]. split; [exact Hmiss |].
  destruct snapshot as [lists [cause |]]; simpl in Hrun.
  - injection Hrun as <- <- <- <-.
    split; [reflexivity |]. split; [reflexivity |]. right. exists cause. split; reflexivity.
  - destruct (scanLists resourceName lists) as [g |];
      [discriminate Hrun |].
    injection Hrun as <- <- <- <-.
    split; [reflexivity |]. split; [reflexivity |]. left. split; reflexivity.
Qed.

Lemma resolution_errors_witness :
  exists gvr1 cause1 out2 kinds outs snapshot,
    kindVariations "nodes" = Some kinds
    /\ isMiss out2
    /\ List.length outs = List.length kinds
    /\ Forall isMiss outs
    /\ [ EvResourceFor (mkGVR "" "" "nodes")
           (zeroGVR, Some (ErrorString "no matches for resource"));
         EvRESTMappings (mkGK "" "nodes") ([], Some (ErrorString "no matches for kind"));
         EvRESTMappings (mkGK "" "nodes") ([], Some (ErrorString "no matches for kind"));
         EvRESTMappings (mkGK "" "Nodes") ([], Some (ErrorString "no matches for kind"));
         EvRESTMappings (mkGK "" "NODES") ([], Some (ErrorString "no matches for kind"));
         EvRESTMappings (mkGK "" "Nodes") ([], Some (ErrorString "no matches for kind"));
         EvServerPreferredResources ([], Some (ErrorString "connection refused")) ]
       = EvResourceFor (mkGVR "" "" "nodes") (gvr1, Some cause1)
         :: EvRESTMappings (mkGK "" "nodes") out2
         :: kindEvents kinds outs
         ++ [EvServerPreferredResources snapshot]
    /\ zeroGVR = zeroGVR
    /\ ((snd snapshot = None
         /\ FindFailed "nodes" (ErrorString "connection refused") = NotFound "nodes")
        \/ (exists cause,
              snd snapshot = Some cause
              /\ FindFailed "nodes" (ErrorString "connection refused")
                 = FindFailed "nodes" cause)).
Proof.
  apply (resolution_errors AsciiCase nat (fakeKubeGet brokenCluster) 0 7 "nodes"
           zeroGVR (FindFailed "nodes" (ErrorString "connection refused"))).
  - discriminate.
  - reflexivity.
Defined.

(** ** No panic *)

Lemma findGVR_returns : forall (caseOps : CaseOps) (W : Type) (k : KubeGet W)
    (w : W) (resourceName : string),
  exists r w' evs, run k (findGVR resourceName) w = (Some r, w', evs).
Proof.
  intros caseOps W k w resourceName.
  destruct resourceName as [| b rest].
  - exists (zeroGVR, Some InvalidInput), w, []. reflexivity.
  - unfold findGVR. rewrite (eqb_empty_false (String b rest)) by discriminate.
    pose proof (fullyQualified_never_faults (String b rest)) as Hfq.
    destruct (fullyQualified (String b rest)) as [[g |] |].
    + exists (g, None), w, []. reflexivity.
    + contradiction Hfq. reflexivity.
    + rewrite run_lookup.
      destruct (restMapper_ResourceFor k (mkGVR "" "" (String b rest)) w)
        as [[gvr1 [cause1 |]] w1]; cbn [snd fst isNil]; cbv beta iota zeta;
        [| eexists _, _, _; reflexivity].
      destruct (restMapper_RESTMappings k (mkGK "" (String b rest)) w1) as [out2 w2].
      destruct (firstMapping out2) as [g |]; [eexists _, _, _; reflexivity |].
      rewrite kindVariations_nonempty.
      match goal with
      | |- context [run k (tryKinds ?ks) w2] =>
          destruct (run_tryKinds k ks w2) as (outs & w3 & found & Hkinds & _ & _);
          rewrite Hkinds
      end.
      cbv beta iota.
      destruct found as [g |]; [eexists _, _, _; reflexivity |].
      rewrite run_aliasScan.
      destruct (discoveryClient_ServerPreferredResources k w3) as [snapshot w4].
      eexists _, _, _; reflexivity.
Qed.

(** C8. Building the candidate Kinds never goes out of bounds: for a
    non-empty identifier, and so for one of a single byte, reading the
    first byte and slicing from index 1 both succeed; on the empty
    identifier the indexing would be out of range, but the guard at the
    entry returns before it; and a resolution run ends in a return, never
    in a panic, on every identifier and every collaborator behaviour. *)
Theorem kind_variations_never_fault :
  forall caseOps : CaseOps,
    (forall resourceName : string,
       resourceName <> "" ->
       exists first rest,
         byteAt resourceName 0 = Some first
         /\ sliceFrom resourceName 1 = Some rest
         /\ kindVariations resourceName
            = Some [ resourceName; Title resourceName; ToUpper resourceName;
                     String.append (ToUpper (stringOfByte first)) (ToLower rest) ])
    /\ (forall b : ascii,
          byteAt (String b "") 0 = Some b /\ sliceFrom (String b "") 1 = Some "")
    /\ (byteAt "" 0 = None /\ findGVR "" = Ret (zeroGVR, Some InvalidInput))
    /\ (forall (W : Type) (k : KubeGet W) (w : W) (resourceName : string),
          exists r w' evs, run k (findGVR resourceName) w = (Some r, w', evs)).
Proof.
  intros caseOps. split; [| split; [| split]].
  - intros [| b rest] Hne; [contradiction Hne; reflexivity |].
    exists b, rest. split; [reflexivity |]. split; [reflexivity |].
    apply kindVariations_nonempty.
  - intros b. split; reflexivity.
  - split; reflexivity.
  - intros W k w resourceName. apply findGVR_returns.
Qed.

Lemma kind_variations_never_fault_witness :
  exists first rest,
    byteAt "x" 0 = Some first
    /\ sliceFrom "x" 1 = Some rest
    /\ kindVariations "x"
       = Some [ "x"; Title "x"; ToUpper "x";
                String.append (ToUpper (stringOfByte first)) (ToLower rest) ].
Proof.
  apply (proj1 (kind_variations_never_fault AsciiCase) "x"). discriminate.
Defined.

(** ** The facade *)

Section Facade.

Context {caseOps : CaseOps} {W : Type} (k : KubeGet W).

Lemma run_Get : forall (resourceName namespace : string) (w : W),
  run k (Get resourceName namespace) w =
  match run k (findGVR resourceName) w with
  | (None, w1, evs1) => (None, w1, evs1)
  | (Some (_, Some e), w1, evs1) =>
      (Some (zeroGVR, None, Some (FindFailed resourceName e)), w1, evs1)
  | (Some (gvr, None), w1, evs1) =>
      let (out, w2) := dynamicClient_List k gvr (scopeOf namespace) w1 in
      (Some match snd out with
            | Some e => (gvr, None, Some (ListFailed e))
            | None => (gvr, fst out, None)
            end,
       w2, evs1 ++ [EvList gvr (scopeOf namespace) out])
  end.
Proof.
  intros resourceName namespace w. unfold Get. rewrite run_bind.
  destruct (run k (findGVR resourceName) w) as [[[[gvr [e |]] |] w1] evs1].
  - simpl. rewrite app_nil_r. reflexivity.
  - unfold scopeOf.
    destruct (negb (String.eqb namespace "")); rewrite run_call_bind; simpl perform;
      match goal with
      | |- context [dynamicClient_List k gvr ?sc w1] =>
          destruct (dynamicClient_List k gvr sc w1) as [[lst [e |]] w2]
      end; reflexivity.
  - reflexivity.
Qed.

Lemma run_Get_resolution_failed :
  forall (resourceName namespace : string) (w w1 : W)
         (gvr : GroupVersionResource) (e : error) (evs1 : list Event),
    run k (findGVR resourceName) w = (Some (gvr, Some e), w1, evs1) ->
    run k (Get resourceName namespace) w
    = (Some (zeroGVR, None, Some (FindFailed resourceName e)), w1, evs1).
Proof.
  intros resourceName namespace w w1 gvr e evs1 H. rewrite run_Get, H. reflexivity.
Qed.

Lemma run_Get_resolved :
  forall (resourceName namespace : string) (w w1 : W)
         (gvr : GroupVersionResource) (evs1 : list Event),
    run k (findGVR resourceName) w = (Some (gvr, None), w1, evs1) ->
    run k (Get resourceName namespace) w
    = (let (out, w2) := dynamicClient_List k gvr (scopeOf namespace) w1 in
       (Some match snd out with
             | Some e => (gvr, None, Some (ListFailed e))
             | None => (gvr, fst out, None)
             end,
        w2, evs1 ++ [EvList gvr (scopeOf namespace) out])).
Proof.
  intros resourceName namespace w w1 gvr evs1 H. rewrite run_Get, H. reflexivity.
Qed.

End Facade.

Lemma scopeOf_empty : scopeOf "" = None.
Proof. reflexivity. Qed.

Lemma scopeOf_nonempty : forall namespace : string,
  namespace <> "" -> scopeOf namespace = Some namespace.
Proof.
  intros namespace H. unfold scopeOf. rewrite (eqb_empty_false _ H). reflexivity.
Qed.

(** C9. After a successful resolution to any descriptor, [Get] makes
    exactly one further call, the listing of that descriptor: without a
    namespace when the scope string is empty, and in that namespace
    whenever it is not; nothing is asked about the resource in between. *)
Theorem listing_scope :
  forall (caseOps : CaseOps) (W : Type) (k : KubeGet W) (w w1 : W)
         (resourceName namespace : string) (gvr : GroupVersionResource)
         (evs1 : list Event),
    run k (findGVR resourceName) w = (Some (gvr, None), w1, evs1) ->
    exists scope out w2 r,
      dynamicClient_List k gvr scope w1 = (out, w2)
      /\ run k (Get resourceName namespace) w
         = (Some r, w2, evs1 ++ [EvList gvr scope out])
      /\ (scope = None <-> namespace = "")
      /\ (namespace <> "" -> scope = Some namespace).
Proof.
  intros caseOps W k w w1 resourceName namespace gvr evs1 H.
  rewrite (run_Get_resolved k resourceName namespace w w1 gvr evs1 H).
  destruct (dynamicClient_List k gvr (scopeOf namespace) w1) as [out w2] eqn:E.
  exists (scopeOf namespace), out, w2. eexists.
  split; [exact E |]. split; [reflexivity |]. split.
  - split.
    + intro Hs. destruct (String.eqb_spec namespace "") as [He | He]; [exact He |].
      rewrite (scopeOf_nonempty _ He) in Hs. discriminate Hs.
    + intros ->. reflexivity.
  - apply scopeOf_nonempty.
Qed.

Lemma listing_scope_witness :
  exists scope out w2 r,
    dynamicClient_List (fakeKubeGet sampleCluster) podsGVR scope 1 = (out, w2)
    /\ run (fakeKubeGet sampleCluster) (Get "pods" "default") 0
       = (Some r, w2,
          [EvResourceFor (mkGVR "" "" "pods") (podsGVR, None)]
          ++ [EvList podsGVR scope out])
    /\ (scope = None <-> "default" = "")
    /\ ("default" <> "" -> scope = Some "default").
Proof.
  apply (listing_scope AsciiCase nat (fakeKubeGet sampleCluster) 0 1 "pods" "default").
  reflexivity.
Defined.

(** C10. When the resolution fails, [Get] returns the zero descriptor and
    a nil list together with the error, whatever descriptor the failed
    resolution carried. *)
Theorem resolution_failure_returns_zero_values :
  forall (caseOps : CaseOps) (W : Type) (k : KubeGet W) (w w1 : W)
         (resourceName namespace : string) (gvr : GroupVersionResource)
         (e : error) (evs1 : list Event),
    run k (findGVR resourceName) w = (Some (gvr, Some e), w1, evs1) ->
    exists err,
      fst (fst (run k (Get resourceName namespace) w))
      = Some (mkGVR "" "" "", None, Some err).
Proof.
  intros caseOps W k w w1 resourceName namespace gvr e evs1 H.
  exists (FindFailed resourceName e).
  rewrite (run_Get_resolution_failed k resourceName namespace w w1 gvr e evs1 H). reflexivity.
Qed.

Lemma resolution_failure_returns_zero_values_witness :
  exists err,
    fst (fst (run (fakeKubeGet brokenCluster) (Get "" "default") 0))
    = Some (mkGVR "" "" "", None, Some err).
Proof.
  apply (resolution_failure_returns_zero_values AsciiCase nat
           (fakeKubeGet brokenCluster) 0 0 "" "default" zeroGVR InvalidInput []).
  reflexivity.
Defined.

(** C4, as the code has it.  When the resolution fails, [Get] returns its
    error wrapped with the identifier and makes no listing call (the
    calls of the run are those of the resolution).  When the resolution
    succeeds and the listing fails, [Get] returns the resolved descriptor
    with the listing error wrapped.  An error of [Get] is one of these
    two wrappers: the first has the identifier as an operand, the second
    has the cause as its only operand. *)
Theorem get_error_wrapping :
  forall (caseOps : CaseOps) (W : Type) (k : KubeGet W) (w : W)
         (resourceName namespace : string),
    (forall gvr e w1 evs1,
       run k (findGVR resourceName) w = (Some (gvr, Some e), w1, evs1) ->
       run k (Get resourceName namespace) w
       = (Some (zeroGVR, None, Some (FindFailed resourceName e)), w1, evs1)
       /\ carriesIdentifier (FindFailed resourceName e) resourceName = true)
    /\ (forall gvr w1 evs1 items cause w2,
          run k (findGVR resourceName) w = (Some (gvr, None), w1, evs1) ->
          dynamicClient_List k gvr (scopeOf namespace) w1
          = ((items, Some cause), w2) ->
          run k (Get resourceName namespace) w
          = (Some (gvr, None, Some (ListFailed cause)), w2,
             evs1 ++ [EvList gvr (scopeOf namespace) (items, Some cause)])
          /\ operandsOf (ListFailed cause) = [AErr cause])
    /\ (forall gvr items err w' evs,
          run k (Get resourceName namespace) w = (Some (gvr, items, Some err), w', evs) ->
          (exists e, err = FindFailed resourceName e)
          \/ (exists cause, err = ListFailed cause)).
Proof.
  intros caseOps W k w resourceName namespace. split; [| split].
  - intros gvr e w1 evs1 H. split.
    + apply (run_Get_resolution_failed k resourceName namespace w w1 gvr e evs1 H).
    + unfold carriesIdentifier. simpl. rewrite String.eqb_refl. reflexivity.
  - intros gvr w1 evs1 items cause w2 H Hlist. split; [| reflexivity].
    rewrite (run_Get_resolved k resourceName namespace w w1 gvr evs1 H), Hlist.
    reflexivity.
  - intros gvr items err w' evs H. rewrite run_Get in H.
    destruct (run k (findGVR resourceName) w) as [[[[g [e |]] |] w1] evs1].
    + injection H as <- <- <- <- <-. left. exists e. reflexivity.
    + destruct (dynamicClient_List k g (scopeOf namespace) w1) as [[lst [e |]] w2];
        simpl in H.
      * injection H as <- <- <- <- <-. right. exists e. reflexivity.
      * discriminate H.
    + discriminate H.
Qed.

Lemma get_error_wrapping_witness :
  (run (fakeKubeGet forbiddenCluster) (Get "" "default") 0
   = (Some (zeroGVR, None, Some (FindFailed "" InvalidInput)), 0, [])
   /\ carriesIdentifier (FindFailed "" InvalidInput) "" = true)
  /\ (run (fakeKubeGet forbiddenCluster) (Get "pods" "default") 0
      = (Some (podsGVR, None, Some (ListFailed (ErrorString "forbidden"))), 2,
         [EvResourceFor (mkGVR "" "" "pods") (podsGVR, None)]
         ++ [EvList podsGVR (scopeOf "default")
               (None, Some (ErrorString "forbidden"))])
      /\ operandsOf (ListFailed (ErrorString "forbidden"))
         = [AErr (ErrorString "forbidden")]).
Proof.
  split.
  - apply (proj1 (get_error_wrapping AsciiCase nat (fakeKubeGet forbiddenCluster)
                    0 "" "default") zeroGVR InvalidInput 0 []).
    reflexivity.
  - apply (proj1 (proj2 (get_error_wrapping AsciiCase nat
                           (fakeKubeGet forbiddenCluster) 0 "pods" "default"))
             podsGVR 1 [EvResourceFor (mkGVR "" "" "pods") (podsGVR, None)]
             None (ErrorString "forbidden") 2).
    + reflexivity.
    + reflexivity.
Defined.

(** C4 as stated fails on a listing error: [Get "pods" "default"] on a
    cluster whose dynamic client refuses to list returns the descriptor
    of pods and an error whose wrapper has neither the identifier nor the
    descriptor among its operands, and in which the name of the resource
    occurs nowhere. *)
Lemma listing_error_carries_neither :
  run (fakeKubeGet forbiddenCluster) (Get "pods" "default") 0
  = (Some (podsGVR, None, Some (ListFailed (ErrorString "forbidden"))), 2,
     [ EvResourceFor (mkGVR "" "" "pods") (podsGVR, None);
       EvList podsGVR (Some "default") (None, Some (ErrorString "forbidden")) ])
  /\ carriesIdentifier (ListFailed (ErrorString "forbidden")) "pods" = false
  /\ carriesDescriptor (ListFailed (ErrorString "forbidden")) podsGVR = false
  /\ occursIn "pods" (ListFailed (ErrorString "forbidden")) = false.
Proof. repeat split. Qed.

(** ** The exhaustive scan *)

Lemma allBytes_complete : forall a : ascii, In a allBytes.
Proof.
  intro a. unfold allBytes. rewrite <- (ascii_nat_embedding a).
  apply in_map. apply in_seq. pose proof (nat_ascii_bounded a). lia.
Qed.

(** A pair of bytes folds together exactly when their lower-case forms
    are the same byte. *)
Lemma foldPair_lower : forall a b : ascii,
  foldPair a b = Ascii.eqb (lowerByte a) (lowerByte b).
Proof.
  assert (H : forallb (fun a => forallb (fun b =>
                Bool.eqb (foldPair a b) (Ascii.eqb (lowerByte a) (lowerByte b)))
                allBytes) allBytes = true) by (vm_compute; reflexivity).
  intros a b. rewrite forallb_forall in H.
  specialize (H a (allBytes_complete a)). rewrite forallb_forall in H.
  specialize (H b (allBytes_complete b)). apply Bool.eqb_prop in H. exact H.
Qed.

Lemma equalFoldBytes_lower : forall s t : string,
  equalFoldBytes s t = true <-> mapBytes lowerByte s = mapBytes lowerByte t.
Proof.
  induction s as [| a s IH]; intros [| b t]; simpl.
  - split; reflexivity.
  - split; discriminate.
  - split; discriminate.
  - rewrite andb_true_iff, foldPair_lower, IH. split.
    + intros [Hab Hst]. apply Ascii.eqb_eq in Hab. rewrite Hab, Hst. reflexivity.
    + intro H. injection H as Hab Hst. split; [| exact Hst].
      apply Ascii.eqb_eq. exact Hab.
Qed.

Lemma find_app_first : forall (A : Type) (f : A -> bool) (l1 l2 : list A),
  find f (l1 ++ l2) =
  match find f l1 with
  | Some x => Some x
  | None => find f l2
  end.
Proof.
  intros A f l1 l2. induction l1 as [| x l1 IH]; simpl; [reflexivity |].
  destruct (f x); [reflexivity | exact IH].
Qed.

Lemma find_map_pair : forall (A B : Type) (f : B -> bool) (c : A) (l : list B),
  find (fun e => f (snd e)) (map (fun r => (c, r)) l)
  = option_map (fun r => (c, r)) (find f l).
Proof.
  intros A B f c l. induction l as [| x l IH]; simpl; [reflexivity |].
  destruct (f x); [reflexivity | exact IH].
Qed.

Section Scan.

Context {caseOps : CaseOps}.

Lemma hasShortName_existsb : forall (resourceName : string) (shortNames : list string),
  hasShortName resourceName shortNames
  = existsb (fun shortName => String.eqb shortName resourceName) shortNames.
Proof.
  intros resourceName shortNames.
  induction shortNames as [| n ns IH]; simpl; [reflexivity |].
  destruct (String.eqb n resourceName); [reflexivity | exact IH].
Qed.

Lemma entryMatches_iff : forall (resourceName : string) (r : APIResource),
  entryMatches resourceName r = true
  <-> Name r = resourceName
      \/ EqualFold (Kind r) resourceName = true
      \/ In resourceName (ShortNames r).
Proof.
  intros resourceName r. unfold entryMatches.
  rewrite !orb_true_iff, String.eqb_eq, existsb_exists. split.
  - intros [[H | H] | (n & Hin & Hn)]; auto.
    apply String.eqb_eq in Hn. subst n. auto.
  - intros [H | [H | H]]; auto.
    right. exists resourceName. split; [exact H | apply String.eqb_refl].
Qed.

Lemma scanResources_find :
  forall (gv : GroupVersion) (resourceName : string) (apiResources : list APIResource),
    scanResources gv resourceName apiResources
    = option_map (fun r => WithResource gv (Name r))
        (find (entryMatches resourceName) apiResources).
Proof.
  intros gv resourceName apiResources.
  induction apiResources as [| r rs IH]; simpl; [reflexivity |].
  unfold entryMatches at 1. rewrite <- hasShortName_existsb.
  destruct (String.eqb (Name r) resourceName || EqualFold (Kind r) resourceName);
    simpl; [reflexivity |].
  destruct (hasShortName resourceName (ShortNames r)); [reflexivity | exact IH].
Qed.

Lemma scanLists_find :
  forall (resourceName : string) (snapshot : list (option APIResourceList)),
    scanLists resourceName snapshot
    = option_map descriptorOf
        (find (fun entry => entryMatches resourceName (snd entry))
           (parsedEntries snapshot)).
Proof.
  intros resourceName snapshot.
  induction snapshot as [| [l |] rest IH]; simpl; [reflexivity | | exact IH].
  destruct (ParseGroupVersion (GroupVersionString l)) as [gv [e |]]; [exact IH |].
  rewrite find_app_first, find_map_pair, scanResources_find.
  destruct (find (entryMatches resourceName) (APIResources l)); [reflexivity | exact IH].
Qed.

End Scan.

(** C6, as the code has it.  The scan goes through the entries of the
    lists that are not nil and whose group-version string parses, in the
    snapshot's order, and returns the descriptor of the first entry whose
    plural name is the identifier, whose Kind equals it up to case, or one
    of whose short names is the identifier; with no such entry the
    resolution ends in [NotFound].  On ASCII strings, equal up to case
    means equal lower-case forms.  The identifier "dspa" resolves through
    the scan to the resource that registers it as a short name. *)
Theorem alias_scan_first_match :
  (forall (caseOps : CaseOps) (resourceName : string)
          (snapshot : list (option APIResourceList)),
     scanLists resourceName snapshot
     = option_map descriptorOf
         (find (fun entry => entryMatches resourceName (snd entry))
            (parsedEntries snapshot)))
  /\ (forall (caseOps : CaseOps) (resourceName : string) (r : APIResource),
        entryMatches resourceName r = true
        <-> Name r = resourceName
            \/ EqualFold (Kind r) resourceName = true
            \/ In resourceName (ShortNames r))
  /\ (forall kind resourceName : string,
        isASCII kind = true -> isASCII resourceName = true ->
        (@EqualFold AsciiCase kind resourceName = true
         <-> @ToLower AsciiCase kind = @ToLower AsciiCase resourceName))
  /\ (forall (caseOps : CaseOps) (W : Type) (k : KubeGet W) (w w1 : W)
             (resourceName : string) (snapshot : list (option APIResourceList)),
        discoveryClient_ServerPreferredResources k w = ((snapshot, None), w1) ->
        run k (aliasScan resourceName) w
        = (Some match find (fun entry => entryMatches resourceName (snd entry))
                        (parsedEntries snapshot) with
                | Some entry => (descriptorOf entry, None)
                | None => (zeroGVR, Some (NotFound resourceName))
                end,
           w1, [EvServerPreferredResources (snapshot, None)]))
  /\ fst (fst (run (fakeKubeGet sampleCluster) (findGVR "dspa") 0))
     = Some (dspaGVR, None).
Proof.
  split; [| split; [| split; [| split]]].
  - intros caseOps resourceName snapshot. apply scanLists_find.
  - intros caseOps resourceName r. apply entryMatches_iff.
  - intros kind resourceName _ _. apply equalFoldBytes_lower.
  - intros caseOps W k w w1 resourceName snapshot H.
    rewrite run_aliasScan, H. simpl. rewrite scanLists_find.
    destruct (find (fun entry => entryMatches resourceName (snd entry))
                (parsedEntries snapshot)); reflexivity.
  - reflexivity.
Qed.

Lemma alias_scan_first_match_witness :
  (@EqualFold AsciiCase "WIDGET" "widget" = true
   <-> @ToLower AsciiCase "WIDGET" = @ToLower AsciiCase "widget")
  /\ run (fakeKubeGet (mkFakeCluster [] [] (mixedSnapshot, None) (None, None)))
       (aliasScan "wdg") 0
     = (Some match find (fun entry => entryMatches "wdg" (snd entry))
                     (parsedEntries mixedSnapshot) with
             | Some entry => (descriptorOf entry, None)
             | None => (zeroGVR, Some (NotFound "wdg"))
             end,
        1, [EvServerPreferredResources (mixedSnapshot, None)]).
Proof.
  split.
  - apply (proj1 (proj2 (proj2 alias_scan_first_match)) "WIDGET" "widget");
      reflexivity.
  - apply (proj1 (proj2 (proj2 (proj2 alias_scan_first_match))) AsciiCase nat
             (fakeKubeGet (mkFakeCluster [] [] (mixedSnapshot, None) (None, None)))
             0 1 "wdg" mixedSnapshot).
    reflexivity.
Defined.

(** C6 as stated fails on a snapshot whose list has a group-version that
    does not parse: its entry [widgets] is the first, and only, entry the
    snapshot advertises that matches the identifier, yet the scan returns
    no descriptor and the resolution ends in [NotFound]. *)
Lemma scan_passes_over_unparsed_list :
  find (fun entry => entryMatches "widgets" (snd entry))
    (advertisedEntries malformedSnapshot)
  = Some ("example.io/v1/extra", mkAPIResource "widgets" "Widget" ["wd"])
  /\ scanLists "widgets" malformedSnapshot = None
  /\ fst (fst (run (fakeKubeGet malformedCluster) (findGVR "widgets") 0))
     = Some (zeroGVR, Some (NotFound "widgets")).
Proof. repeat split. Qed.

(** ** The candidate Kinds *)

Lemma titleFrom_length : forall (s : string) (prev : ascii),
  String.length (titleFrom prev s) = String.length s.
Proof.
  induction s as [| b s IH]; intro prev; simpl; [reflexivity |].
  rewrite IH. reflexivity.
Qed.

Lemma titleFrom_get : forall (s : string) (prev : ascii) (i : nat) (b : ascii),
  String.get i s = Some b ->
  String.get i (titleFrom prev s)
  = Some (if isSeparator (byteBeforeFrom prev s i) then upperByte b else b).
Proof.
  induction s as [| c s IH]; intros prev i b H.
  - destruct i; discriminate H.
  - destruct i as [| i]; simpl in H.
    + injection H as <-. reflexivity.
    + simpl. rewrite (IH c i b H). destruct i as [| i]; [reflexivity |].
      simpl. destruct (String.get i s) eqn:E; [reflexivity |].
      exfalso. clear IH. revert i H E.
      induction s as [| d s IHs]; intros i H E.
      * discriminate H.
      * destruct i as [| i]; simpl in H, E; [discriminate E |].
        exact (IHs i H E).
Qed.

Lemma titleFrom_oneWord : forall (s : string) (prev : ascii),
  isSeparator prev = false -> oneWord s = true -> titleFrom prev s = s.
Proof.
  induction s as [| b s IH]; intros prev Hprev Hword; simpl; [reflexivity |].
  simpl in Hword. apply andb_true_iff in Hword. destruct Hword as [Hb Hs].
  apply negb_true_iff in Hb. rewrite Hprev, (IH b Hb Hs). reflexivity.
Qed.

Lemma Title_oneWord : forall s : string,
  oneWord s = true -> @Title AsciiCase s = upperFirst s.
Proof.
  intros [| b s] H; [reflexivity |].
  simpl in H. apply andb_true_iff in H. destruct H as [Hb Hs].
  apply negb_true_iff in Hb. simpl. rewrite (titleFrom_oneWord s b Hb Hs).
  reflexivity.
Qed.

Lemma stringOfByte_ascii : forall b : ascii,
  isASCIIByte b = true -> stringOfByte b = String b "".
Proof.
  intros b H. unfold stringOfByte. unfold isASCIIByte in H. rewrite H. reflexivity.
Qed.

Section Strategy4.

Context {caseOps : CaseOps} {W : Type} (k : KubeGet W).

(** A run that reaches the candidate Kinds asks for them in order, after
    the direct lookup and the Kind lookup, and stops at the first hit;
    only when all of them miss does it go on to the discovery. *)
Lemma run_findGVR_candidates :
  forall (resourceName : string) (w w1 w2 : W) (gvr1 : GroupVersionResource)
         (cause1 : error) (out2 : list RESTMapping * option error)
         (kinds : list string),
    resourceName <> "" ->
    List.length (Split resourceName ".") < 3 ->
    restMapper_ResourceFor k (mkGVR "" "" resourceName) w
    = ((gvr1, Some cause1), w1) ->
    restMapper_RESTMappings k (mkGK "" resourceName) w1 = (out2, w2) ->
    isMiss out2 ->
    kindVariations resourceName = Some kinds ->
    exists outs rest r w',
      run k (findGVR resourceName) w
      = (Some r, w',
         EvResourceFor (mkGVR "" "" resourceName) (gvr1, Some cause1)
         :: EvRESTMappings (mkGK "" resourceName) out2
         :: kindEvents kinds outs ++ rest)
      /\ List.length outs <= List.length kinds
      /\ ((exists misses hit gvr,
             outs = misses ++ [hit] /\ Forall isMiss misses
             /\ firstMapping hit = Some gvr /\ r = (gvr, None) /\ rest = [])
          \/ (List.length outs = List.length kinds /\ Forall isMiss outs
              /\ exists snapshot, rest = [EvServerPreferredResources snapshot])).
Proof.
  intros resourceName w w1 w2 gvr1 cause1 out2 kinds Hne Hparts Hfor Hkind Hmiss Hkinds.
  rewrite (run_findGVR_lookup k resourceName w Hne Hparts).
  rewrite run_lookup, Hfor. cbn [snd fst isNil]. cbv beta iota zeta.
  rewrite Hkind, (isMiss_firstMapping_None out2 Hmiss), Hkinds.
  destruct (run_tryKinds k kinds w2) as (outs & w3 & found & Hrun & Hlen & Hfound).
  rewrite Hrun. cbv beta iota.
  destruct found as [gvr |].
  - exists outs, [], (gvr, None), w3. rewrite app_nil_r.
    split; [reflexivity |]. split; [exact Hlen |]. left.
    destruct Hfound as (misses & hit & Houts & Hm & Hh).
    exists misses, hit, gvr. repeat split; assumption.
  - rewrite run_aliasScan.
    destruct (discoveryClient_ServerPreferredResources k w3) as [snapshot w4].
    eexists outs, [EvServerPreferredResources snapshot], _, w4.
    split; [reflexivity |]. split; [exact Hlen |]. right.
    destruct Hfound as [Hl Hm]. split; [exact Hl |]. split; [exact Hm |].
    exists snapshot. reflexivity.
Qed.

End Strategy4.




(** ** The shape of every resolution *)

Lemma kindVariations_length : forall (caseOps : CaseOps) (resourceName : string)
    (kinds : list string),
  kindVariations resourceName = Some kinds -> List.length kinds = 4.
Proof.
  intros caseOps [| b rest] kinds H.
  - discriminate H.
  - rewrite kindVariations_nonempty in H. injection H as <-. reflexivity.
Qed.

Lemma run_findGVR_Resolution :
  forall (caseOps : CaseOps) (W : Type) (k : KubeGet W) (w : W)
         (resourceName : string),
    exists r w' evs,
      run k (findGVR resourceName) w = (Some r, w', evs)
      /\ Resolution resourceName r evs.
Proof.
  intros caseOps W k w resourceName.
  destruct (String.eqb_spec resourceName "") as [He | Hne].
  - subst resourceName. exists (zeroGVR, Some InvalidInput), w, [].
    split; [reflexivity | constructor; reflexivity].
  - destruct (Nat.le_gt_cases 3 (List.length (Split resourceName "."))) as [H3 | H3].
    + eexists _, w, []. split.
      * unfold findGVR.
        rewrite (eqb_empty_false _ Hne), (fullyQualified_three_parts _ H3).
        reflexivity.
      * apply ResolvedSyntactic; assumption.
    + rewrite (run_findGVR_lookup k resourceName w Hne H3), run_lookup.
      destruct (restMapper_ResourceFor k (mkGVR "" "" resourceName) w)
        as [[gvr1 [cause1 |]] w1]; cbn [snd fst isNil]; cbv beta iota zeta.
      2:{ eexists _, _, _. split; [reflexivity |].
          apply ResolvedDirect; assumption. }
      destruct (restMapper_RESTMappings k (mkGK "" resourceName) w1) as [out2 w2].
      destruct (firstMapping out2) as [g |] eqn:E2.
      { eexists _, _, _. split; [reflexivity |].
        apply ResolvedByKind; assumption. }
      destruct resourceName as [| b rest]; [contradiction Hne; reflexivity |].
      rewrite kindVariations_nonempty.
      match goal with
      | |- context [run k (tryKinds ?ks) w2] =>
          destruct (run_tryKinds k ks w2) as (outs & w3 & found & Hkinds & Hlen & Hfound);
          rewrite Hkinds
      end.
      cbv beta iota. destruct found as [g |].
      * destruct Hfound as (misses & hit & -> & Hm & Hh).
        eexists _, _, _. split; [reflexivity |].
        apply ResolvedByCandidate; try assumption.
        -- apply firstMapping_None_isMiss. exact E2.
        -- apply kindVariations_nonempty.
        -- rewrite length_app in Hlen. simpl in Hlen |- *. lia.
      * destruct Hfound as [Hl Hm]. rewrite run_aliasScan.
        destruct (discoveryClient_ServerPreferredResources k w3) as [snapshot w4].
        eexists _, _, _. split; [reflexivity |].
        apply ResolvedByDiscovery; try assumption.
        -- apply firstMapping_None_isMiss. exact E2.
        -- apply kindVariations_nonempty.
Qed.


(** ** Counting calls *)

Lemma countEvents_app : forall (f : Event -> bool) (a b : list Event),
  countEvents f (a ++ b) = countEvents f a + countEvents f b.
Proof.
  intros f a b. unfold countEvents. rewrite filter_app, length_app. reflexivity.
Qed.

Lemma kindEvents_length : forall kinds outs,
  List.length (kindEvents kinds outs) <= List.length kinds.
Proof.
  intros kinds outs. unfold kindEvents. rewrite length_map, length_combine. lia.
Qed.

Lemma kindEvents_count : forall (f : Event -> bool) kinds outs,
  countEvents f (kindEvents kinds outs) <= List.length kinds.
Proof.
  intros f kinds outs. unfold countEvents.
  pose proof (filter_length_le f (kindEvents kinds outs)).
  pose proof (kindEvents_length kinds outs). lia.
Qed.

Lemma kindEvents_count_other : forall (f : Event -> bool) kinds outs,
  (forall gk out, f (EvRESTMappings gk out) = false) ->
  countEvents f (kindEvents kinds outs) = 0.
Proof.
  intros f kinds outs Hf. unfold countEvents, kindEvents.
  induction (combine kinds outs) as [| ko l IH]; simpl; [reflexivity |].
  rewrite Hf. exact IH.
Qed.

Lemma Resolution_call_budget :
  forall (caseOps : CaseOps) (resourceName : string)
         (r : GroupVersionResource * option error) (evs : list Event),
    Resolution resourceName r evs ->
    countEvents isResourceForEvent evs <= 1
    /\ countEvents isRESTMappingsEvent evs <= 5
    /\ countEvents isDiscoveryEvent evs <= 1
    /\ countEvents isListEvent evs = 0
    /\ List.length evs <= 7.
Proof.
  intros caseOps resourceName r evs H.
  destruct H as [ | | gvr | gvr1 gvr cause1 out2
                | gvr1 gvr cause1 out2 hit kinds misses _ _ _ Hk _ _ _
                | gvr1 cause1 out2 kinds outs snapshot _ _ _ Hk _ _ ];
    try (cbv; repeat split; lia).
  - pose proof (kindVariations_length _ _ _ Hk) as H4.
    pose proof (kindEvents_length kinds (misses ++ [hit])) as Hlen.
    pose proof (kindEvents_count isRESTMappingsEvent kinds (misses ++ [hit])) as Hrm.
    change (?a :: ?b :: ?l) with ([a; b] ++ l).
    rewrite !countEvents_app, length_app.
    rewrite (kindEvents_count_other isResourceForEvent) by reflexivity.
    rewrite (kindEvents_count_other isDiscoveryEvent) by reflexivity.
    rewrite (kindEvents_count_other isListEvent) by reflexivity.
    cbn [countEvents filter isResourceForEvent isRESTMappingsEvent isDiscoveryEvent
           isListEvent List.length Nat.add].
    repeat split; lia.
  - pose proof (kindVariations_length _ _ _ Hk) as H4.
    pose proof (kindEvents_length kinds outs) as Hlen.
    pose proof (kindEvents_count isRESTMappingsEvent kinds outs) as Hrm.
    change (?a :: ?b :: ?l) with ([a; b] ++ l).
    rewrite !countEvents_app, !length_app.
    rewrite (kindEvents_count_other isResourceForEvent) by reflexivity.
    rewrite (kindEvents_count_other isDiscoveryEvent) by reflexivity.
    rewrite (kindEvents_count_other isListEvent) by reflexivity.
    cbn [countEvents filter isResourceForEvent isRESTMappingsEvent isDiscoveryEvent
           isListEvent List.length Nat.add].
    repeat split; lia.
Qed.


(** X3. When the direct lookup fails and the Kind lookup for the
    identifier returns mappings without error, the resource of the first
    mapping is the result, whatever the other mappings are, and the run
    consists of these two calls: no candidate Kind is tried and the
    discovery is not consulted. *)
Theorem kind_lookup_wins :
  forall (caseOps : CaseOps) (W : Type) (k : KubeGet W) (w w1 w2 : W)
         (resourceName : string) (gvr1 : GroupVersionResource) (cause1 : error)
         (m : RESTMapping) (ms : list RESTMapping),
    resourceName <> "" ->
    List.length (Split resourceName ".") < 3 ->
    restMapper_ResourceFor k (mkGVR "" "" resourceName) w
    = ((gvr1, Some cause1), w1) ->
    restMapper_RESTMappings k (mkGK "" resourceName) w1 = ((m :: ms, None), w2) ->
    run k (findGVR resourceName) w
    = (Some (mappingResource m, None), w2,
       [ EvResourceFor (mkGVR "" "" resourceName) (gvr1, Some cause1);
         EvRESTMappings (mkGK "" resourceName) (m :: ms, None) ]).
Proof.
  intros caseOps W k w w1 w2 resourceName gvr1 cause1 m ms Hne Hparts Hfor Hkind.
  rewrite (run_findGVR_lookup k resourceName w Hne Hparts).
  rewrite run_lookup, Hfor. cbn [snd fst isNil]. cbv beta iota zeta.
  rewrite Hkind. reflexivity.
Qed.

Lemma kind_lookup_wins_witness :
  run (fakeKubeGet sampleCluster) (findGVR "Deployment") 0
  = (Some (deploymentsGVR, None), 2,
     [ EvResourceFor (mkGVR "" "" "Deployment")
         (zeroGVR, Some (ErrorString "no matches for resource"));
       EvRESTMappings (mkGK "" "Deployment")
         ([mkRESTMapping deploymentsGVR (mkGVK "apps" "v1" "Deployment")], None) ]).
Proof.
  apply (kind_lookup_wins AsciiCase nat (fakeKubeGet sampleCluster) 0 1 2
           "Deployment" zeroGVR (ErrorString "no matches for resource")
           (mkRESTMapping deploymentsGVR (mkGVK "apps" "v1" "Deployment")) []).
  - discriminate.
  - vm_compute. lia.
  - reflexivity.
  - reflexivity.
Defined.

(** ** The syntactic parse is lossless *)

Lemma Split_cons : forall (a : ascii) (s : string),
  Split (String a s) "." =
  if Ascii.eqb a "."%char then "" :: Split s "."
  else match Split s "." with
       | piece :: pieces => String a piece :: pieces
       | [] => [String a ""]
       end.
Proof.
  intros a s. unfold Split. simpl. rewrite andb_true_r. reflexivity.
Qed.

Lemma Split_not_nil : forall s : string, Split s "." <> [].
Proof.
  induction s as [| a s IH]; [discriminate |].
  rewrite Split_cons. destruct (Ascii.eqb a "."%char); [discriminate |].
  destruct (Split s "."); discriminate.
Qed.

Lemma Join_Split : forall s : string, Join (Split s ".") "." = s.
Proof.
  induction s as [| a s IH]; [reflexivity |].
  rewrite Split_cons. pose proof (Split_not_nil s) as Hnil.
  destruct (Ascii.eqb_spec a "."%char) as [-> | Hne].
  - unfold Join in *. destruct (Split s ".") as [| p ps]; [contradiction |].
    change (String.concat "." ("" :: p :: ps))
      with (String "."%char (String.concat "." (p :: ps))).
    rewrite IH. reflexivity.
  - unfold Join in *. destruct (Split s ".") as [| p ps]; [contradiction |].
    destruct ps as [| q qs].
    + simpl in IH |- *. rewrite IH. reflexivity.
    + change (String.concat "." (String a p :: q :: qs))
        with (String a (String.append p (String.append "." (String.concat "." (q :: qs))))).
      change (String.concat "." (p :: q :: qs))
        with (String.append p (String.append "." (String.concat "." (q :: qs)))) in IH.
      rewrite IH. reflexivity.
Qed.

Lemma Split_pieces_no_dot : forall s : string,
  Forall (fun piece => Contains piece "." = false) (Split s ".").
Proof.
  induction s as [| a s IH].
  - constructor; [reflexivity | constructor].
  - rewrite Split_cons. destruct (Ascii.eqb a "."%char) eqn:E.
    + constructor; [reflexivity | exact IH].
    + destruct (Split s ".") as [| p ps].
      * constructor; [| constructor]. simpl. rewrite E. reflexivity.
      * inversion IH as [| ? ? Hp Hps]. subst. constructor; [| exact Hps].
        simpl. rewrite E, andb_true_r. simpl.
        destruct p; simpl in Hp |- *; exact Hp.
Qed.

Lemma fullyQualified_recomposes :
  forall (s : string) (gvr : GroupVersionResource),
    fullyQualified s = Some (Some gvr) ->
    String.append (gvrResource gvr)
      (String.append "." (String.append (gvrVersion gvr)
         (String.append "." (gvrGroup gvr)))) = s
    /\ Contains (gvrResource gvr) "." = false
    /\ Contains (gvrVersion gvr) "." = false.
Proof.
  intros s gvr H.
  destruct (Nat.le_gt_cases 3 (List.length (Split s "."))) as [H3 | H3].
  2:{ rewrite (fullyQualified_few_parts s H3) in H. discriminate H. }
  rewrite (fullyQualified_three_parts s H3) in H. injection H as <-.
  pose proof (Join_Split s) as HJ. pose proof (Split_pieces_no_dot s) as HF.
  destruct (Split s ".") as [| p0 [| p1 [| p2 rest]]]; simpl in H3; try lia.
  inversion HF as [| ? ? Hres HF1]. inversion HF1 as [| ? ? Hver _]. subst.
  cbn [gvrResource gvrVersion gvrGroup nth skipn].
  split; [reflexivity | split; assumption].
Qed.

(** X4. The descriptor of a fully qualified identifier keeps the whole of
    it: resource, version and group joined again with dots are the
    identifier, the resource and the version hold no dot (every further
    dot is in the group), and so two different fully qualified
    identifiers never resolve to the same descriptor. *)
Theorem fully_qualified_round_trip :
  forall caseOps : CaseOps,
    (forall resourceName : string,
       3 <= List.length (Split resourceName ".") ->
       exists gvr,
         findGVR resourceName = Ret (gvr, None)
         /\ String.append (gvrResource gvr)
              (String.append "." (String.append (gvrVersion gvr)
                 (String.append "." (gvrGroup gvr)))) = resourceName
         /\ Contains (gvrResource gvr) "." = false
         /\ Contains (gvrVersion gvr) "." = false)
    /\ (forall a b : string,
          3 <= List.length (Split a ".") ->
          3 <= List.length (Split b ".") ->
          findGVR a = findGVR b -> a = b).
Proof.
  intros caseOps.
  assert (Hone : forall resourceName : string,
            3 <= List.length (Split resourceName ".") ->
            exists gvr,
              findGVR resourceName = Ret (gvr, None)
              /\ fullyQualified resourceName = Some (Some gvr)).
  { intros resourceName H3. eexists. split.
    - unfold findGVR.
      rewrite (eqb_empty_false _ (three_parts_not_empty resourceName H3)).
      rewrite (fullyQualified_three_parts resourceName H3). reflexivity.
    - apply (fullyQualified_three_parts resourceName H3). }
  split.
  - intros resourceName H3. destruct (Hone resourceName H3) as (gvr & Hf & Hq).
    exists gvr. split; [exact Hf |]. apply (fullyQualified_recomposes _ _ Hq).
  - intros a b Ha Hb Hab.
    destruct (Hone a Ha) as (ga & Hfa & Hqa).
    destruct (Hone b Hb) as (gb & Hfb & Hqb).
    rewrite Hfa, Hfb in Hab. injection Hab as Hg. subst gb.
    destruct (fullyQualified_recomposes _ _ Hqa) as [<- _].
    destruct (fullyQualified_recomposes _ _ Hqb) as [<- _]. reflexivity.
Qed.

Lemma fully_qualified_round_trip_witness :
  exists gvr,
    findGVR "deployments.v1.apps" = Ret (gvr, None)
    /\ String.append (gvrResource gvr)
         (String.append "." (String.append (gvrVersion gvr)
            (String.append "." (gvrGroup gvr)))) = "deployments.v1.apps"
    /\ Contains (gvrResource gvr) "." = false
    /\ Contains (gvrVersion gvr) "." = false.
Proof.
  apply (proj1 (fully_qualified_round_trip AsciiCase) "deployments.v1.apps").
  vm_compute. lia.
Defined.


(** ** More on the scan *)

Lemma scanLists_app :
  forall (caseOps : CaseOps) (resourceName : string)
         (a b : list (option APIResourceList)),
    scanLists resourceName (a ++ b)
    = match scanLists resourceName a with
      | Some gvr => Some gvr
      | None => scanLists resourceName b
      end.
Proof.
  intros caseOps resourceName a b.
  induction a as [| [l |] a IH]; simpl; [reflexivity | | exact IH].
  destruct (ParseGroupVersion (GroupVersionString l)) as [gv [e |]]; [exact IH |].
  destruct (scanResources gv resourceName (APIResources l)); [reflexivity | exact IH].
Qed.

Lemma scanLists_filter :
  forall (caseOps : CaseOps) (resourceName : string)
         (snapshot : list (option APIResourceList)),
    scanLists resourceName (filter isScanned snapshot)
    = scanLists resourceName snapshot.
Proof.
  intros caseOps resourceName snapshot.
  induction snapshot as [| [l |] rest IH]; simpl; [reflexivity | | exact IH].
  destruct (ParseGroupVersion (GroupVersionString l)) as [gv [e |]] eqn:E;
    simpl; [exact IH |].
  rewrite E. rewrite IH. reflexivity.
Qed.

(** X6. The scan of a snapshot made of two parts is the scan of the
    first part, and that of the second only when the first finds nothing:
    an earlier list always wins over a later one.  Lists that are nil or
    whose group-version does not parse count for nothing: removing them
    from the snapshot leaves the result as it is. *)
Theorem scan_composes :
  forall (caseOps : CaseOps) (resourceName : string)
         (a b : list (option APIResourceList)),
    scanLists resourceName (a ++ b)
    = match scanLists resourceName a with
      | Some gvr => Some gvr
      | None => scanLists resourceName b
      end
    /\ scanLists resourceName (filter isScanned a) = scanLists resourceName a.
Proof.
  intros caseOps resourceName a b. split.
  - apply scanLists_app.
  - apply scanLists_filter.
Qed.

Lemma parsedEntries_In :
  forall (snapshot : list (option APIResourceList)) (gv : GroupVersion)
         (r : APIResource),
    In (gv, r) (parsedEntries snapshot)
    <-> exists l,
          In (Some l) snapshot
          /\ ParseGroupVersion (GroupVersionString l) = (gv, None)
          /\ In r (APIResources l).
Proof.
  induction snapshot as [| [l |] rest IH]; intros gv r; simpl.
  - split; [contradiction | intros (l & [] & _)].
  - destruct (ParseGroupVersion (GroupVersionString l)) as [gv0 [e |]] eqn:E.
    + rewrite IH. split.
      * intros (l' & Hin & Hp & Hr). exists l'. auto.
      * intros (l' & [Heq | Hin] & Hp & Hr).
        -- injection Heq as ->. rewrite E in Hp. discriminate Hp.
        -- exists l'. auto.
    + rewrite in_app_iff, in_map_iff, IH. split.
      * intros [(r' & Heq & Hr) | (l' & Hin & Hp & Hr)].
        -- injection Heq as -> ->. exists l. auto.
        -- exists l'. auto.
      * intros (l' & [Heq | Hin] & Hp & Hr).
        -- injection Heq as ->. rewrite E in Hp. injection Hp as ->.
           left. exists r. auto.
        -- right. exists l'. auto.
  - rewrite IH. split.
    + intros (l' & Hin & Hp & Hr). exists l'. auto.
    + intros (l' & [Heq | Hin] & Hp & Hr); [discriminate Heq |].
      exists l'. auto.
Qed.

(** X7. A descriptor found by the scan is always made of the group and
    version parsed from a list of the snapshot and the plural name of an
    entry of that list that matches the identifier: the resource of the
    result is never the Kind or the short name that was typed.  The scan
    finds nothing exactly when no entry of a list that parses matches. *)
Theorem scan_sound_and_complete :
  forall (caseOps : CaseOps) (resourceName : string)
         (snapshot : list (option APIResourceList)),
    (forall gvr,
       scanLists resourceName snapshot = Some gvr ->
       exists l gv r,
         In (Some l) snapshot
         /\ ParseGroupVersion (GroupVersionString l) = (gv, None)
         /\ In r (APIResources l)
         /\ entryMatches resourceName r = true
         /\ gvr = mkGVR (gvGroup gv) (gvVersion gv) (Name r))
    /\ (scanLists resourceName snapshot = None
        <-> forall l gv r,
              In (Some l) snapshot ->
              ParseGroupVersion (GroupVersionString l) = (gv, None) ->
              In r (APIResources l) ->
              entryMatches resourceName r = false).
Proof.
  intros caseOps resourceName snapshot. rewrite scanLists_find. split.
  - intros gvr H.
    destruct (find (fun entry => entryMatches resourceName (snd entry))
                (parsedEntries snapshot)) as [[gv r] |] eqn:E; [| discriminate H].
    injection H as <-. apply find_some in E. destruct E as [Hin Hm].
    apply parsedEntries_In in Hin. destruct Hin as (l & Hl & Hp & Hr).
    exists l, gv, r. repeat split; assumption.
  - split.
    + intros H l gv r Hl Hp Hr.
      destruct (find (fun entry => entryMatches resourceName (snd entry))
                  (parsedEntries snapshot)) eqn:E; [discriminate H |].
      apply (find_none _ _ E (gv, r)). apply parsedEntries_In. exists l. auto.
    + intros H.
      destruct (find (fun entry => entryMatches resourceName (snd entry))
                  (parsedEntries snapshot)) as [[gv r] |] eqn:E; [| reflexivity].
      apply find_some in E. destruct E as [Hin Hm].
      apply parsedEntries_In in Hin. destruct Hin as (l & Hl & Hp & Hr).
      simpl in Hm. rewrite (H l gv r Hl Hp Hr) in Hm. discriminate Hm.
Qed.

Lemma scan_sound_and_complete_witness :
  exists l gv r,
    In (Some l) mixedSnapshot
    /\ ParseGroupVersion (GroupVersionString l) = (gv, None)
    /\ In r (APIResources l)
    /\ entryMatches "wdg" r = true
    /\ mkGVR "example.io" "v1" "widgets" = mkGVR (gvGroup gv) (gvVersion gv) (Name r).
Proof.
  apply (proj1 (scan_sound_and_complete AsciiCase "wdg" mixedSnapshot)
           (mkGVR "example.io" "v1" "widgets")).
  reflexivity.
Defined.

(** ** The candidates are case variants *)

Lemma lowerByte_upperByte : forall b : ascii, lowerByte (upperByte b) = lowerByte b.
Proof.
  assert (H : forallb (fun b => Ascii.eqb (lowerByte (upperByte b)) (lowerByte b))
                allBytes = true) by (vm_compute; reflexivity).
  intro b. rewrite forallb_forall in H. apply Ascii.eqb_eq.
  apply H. apply allBytes_complete.
Qed.

Lemma lowerByte_idempotent : forall b : ascii, lowerByte (lowerByte b) = lowerByte b.
Proof.
  assert (H : forallb (fun b => Ascii.eqb (lowerByte (lowerByte b)) (lowerByte b))
                allBytes = true) by (vm_compute; reflexivity).
  intro b. rewrite forallb_forall in H. apply Ascii.eqb_eq.
  apply H. apply allBytes_complete.
Qed.

Lemma case_keeps_ascii : forall b : ascii,
  isASCIIByte (upperByte b) = isASCIIByte b
  /\ isASCIIByte (lowerByte b) = isASCIIByte b.
Proof.
  assert (H : forallb (fun b =>
                Bool.eqb (isASCIIByte (upperByte b)) (isASCIIByte b)
                && Bool.eqb (isASCIIByte (lowerByte b)) (isASCIIByte b))
                allBytes = true) by (vm_compute; reflexivity).
  intro b. rewrite forallb_forall in H.
  specialize (H b (allBytes_complete b)). apply andb_true_iff in H.
  destruct H as [Hu Hl]. split; apply Bool.eqb_prop; assumption.
Qed.

Lemma CaseVariant_refl : forall s : string, CaseVariant s s.
Proof. induction s; constructor; auto. Qed.

Lemma CaseVariant_upper : forall s : string, CaseVariant (mapBytes upperByte s) s.
Proof.
  induction s as [| b s IH]; simpl; constructor;
    [apply lowerByte_upperByte | apply case_keeps_ascii | exact IH].
Qed.

Lemma CaseVariant_lower : forall s : string, CaseVariant (mapBytes lowerByte s) s.
Proof.
  induction s as [| b s IH]; simpl; constructor;
    [apply lowerByte_idempotent | apply case_keeps_ascii | exact IH].
Qed.

Lemma CaseVariant_title : forall (s : string) (prev : ascii),
  CaseVariant (titleFrom prev s) s.
Proof.
  induction s as [| b s IH]; intro prev; simpl; constructor.
  - destruct (isSeparator prev); [apply lowerByte_upperByte | reflexivity].
  - destruct (isSeparator prev); [apply case_keeps_ascii | reflexivity].
  - apply IH.
Qed.

Lemma CaseVariant_facts : forall s t : string,
  CaseVariant s t ->
  String.length s = String.length t
  /\ isASCII s = isASCII t
  /\ equalFoldBytes s t = true.
Proof.
  intros s t H. induction H as [| a b s t Hl Ha _ (IHlen & IHascii & IHfold)].
  - repeat split.
  - simpl. rewrite IHlen, IHascii, Ha, IHfold, foldPair_lower, Hl.
    rewrite (proj2 (Ascii.eqb_eq _ _) eq_refl). repeat split.
Qed.

(** X8. On an ASCII identifier every candidate Kind of strategy 4 is a
    case variant of the identifier: it has the same length, is ASCII, and
    equals the identifier up to case.  The retry can therefore only find
    a Kind that differs from what was typed in the case of its letters. *)
Theorem candidates_are_case_variants :
  forall resourceName : string,
    resourceName <> "" ->
    isASCII resourceName = true ->
    exists kinds,
      @kindVariations AsciiCase resourceName = Some kinds
      /\ List.length kinds = 4
      /\ Forall (fun kind =>
                   String.length kind = String.length resourceName
                   /\ isASCII kind = true
                   /\ @EqualFold AsciiCase kind resourceName = true) kinds.
Proof.
  intros [| first rest] Hne Hascii; [contradiction Hne; reflexivity |].
  eexists. split; [apply kindVariations_nonempty |]. split; [reflexivity |].
  assert (Hfirst : isASCIIByte first = true).
  { simpl in Hascii. apply andb_true_iff in Hascii. apply Hascii. }
  rewrite (stringOfByte_ascii first Hfirst).
  assert (Hv : forall kind, CaseVariant kind (String first rest) ->
                 String.length kind = String.length (String first rest)
                 /\ isASCII kind = true
                 /\ @EqualFold AsciiCase kind (String first rest) = true).
  { intros kind H. destruct (CaseVariant_facts _ _ H) as (Hl & Ha & Hf).
    rewrite Hl, Ha, Hascii. repeat split. exact Hf. }
  constructor; [apply Hv, CaseVariant_refl |].
  constructor; [apply Hv, (CaseVariant_title (String first rest) " "%char) |].
  constructor; [apply Hv, (CaseVariant_upper (String first rest)) |].
  constructor; [| constructor].
  apply Hv. simpl. constructor;
    [apply lowerByte_upperByte | apply case_keeps_ascii | apply CaseVariant_lower].
Qed.

Lemma candidates_are_case_variants_witness :
  exists kinds,
    @kindVariations AsciiCase "replicaSet" = Some kinds
    /\ List.length kinds = 4
    /\ Forall (fun kind =>
                 String.length kind = String.length "replicaSet"
                 /\ isASCII kind = true
                 /\ @EqualFold AsciiCase kind "replicaSet" = true) kinds.
Proof.
  apply (candidates_are_case_variants "replicaSet"); [discriminate | reflexivity].
Defined.

(** ** Construction *)

(** X9. [NewKubeGet] returns a nil instance exactly when it returns an
    error, and an instance exactly when the configuration is not nil and
    both the discovery client and the dynamic client could be created
    from it; the REST mapper of the instance is then built over the very
    cached client that the instance keeps for discovery. *)
Theorem new_kubeget_outcomes :
  forall (Config DiscoveryClient CachedClient Mapper DynamicClient : Type)
         (newDiscovery : Config -> DiscoveryClient * option error)
         (newCache : DiscoveryClient -> CachedClient)
         (newMapper : CachedClient -> Mapper)
         (newDynamic : Config -> DynamicClient * option error)
         (config : option Config),
    let result := NewKubeGet newDiscovery newCache newMapper newDynamic config in
    (fst result = None <-> snd result <> None)
    /\ (forall clients,
          fst result = Some clients <->
          exists cfg discovered dynamic,
            config = Some cfg
            /\ newDiscovery cfg = (discovered, None)
            /\ newDynamic cfg = (dynamic, None)
            /\ clients
               = mkKubeGetClients (newMapper (newCache discovered)) dynamic
                   (newCache discovered))
    /\ (forall clients,
          fst result = Some clients ->
          restMapper clients = newMapper (discoveryClient clients)).
Proof.
  intros Config DiscoveryClient CachedClient Mapper DynamicClient
         newDiscovery newCache newMapper newDynamic config result.
  subst result. unfold NewKubeGet.
  destruct config as [cfg |].
  - destruct (newDiscovery cfg) as [discovered [e1 |]] eqn:E1.
    + split; [split; [discriminate | reflexivity] |]. split.
      * intro clients. split; [discriminate |].
        intros (cfg' & d & dy & Hc & Hd & _). injection Hc as <-.
        rewrite E1 in Hd. discriminate Hd.
      * discriminate.
    + destruct (newDynamic cfg) as [dynamic [e2 |]] eqn:E2.
      * split; [split; [discriminate | reflexivity] |]. split.
        -- intro clients. split; [discriminate |].
           intros (cfg' & d & dy & Hc & _ & Hdy & _). injection Hc as <-.
           rewrite E2 in Hdy. discriminate Hdy.
        -- discriminate.
      * split; [split; [discriminate | intro H; contradiction H; reflexivity] |].
        split.
        -- intro clients. simpl. split.
           ++ intro H. injection H as <-. exists cfg, discovered, dynamic.
              repeat split; assumption.
           ++ intros (cfg' & d & dy & Hc & Hd & Hdy & ->). injection Hc as <-.
              rewrite E1 in Hd. rewrite E2 in Hdy.
              injection Hd as <-. injection Hdy as <-. reflexivity.
        -- intros clients H. simpl in H. injection H as <-. reflexivity.
  - split; [split; [discriminate | reflexivity] |]. split.
    + intro clients. split; [discriminate |].
      intros (cfg & _ & _ & Hc & _). discriminate Hc.
    + discriminate.
Qed.

Lemma new_kubeget_outcomes_witness :
  restMapper
    (mkKubeGetClients (String.append "mapper over " (String.append "cache of " "d0"))
       "dynamic" (String.append "cache of " "d0"))
  = String.append "mapper over "
      (discoveryClient
         (mkKubeGetClients (String.append "mapper over " (String.append "cache of " "d0"))
            "dynamic" (String.append "cache of " "d0"))).
Proof.
  apply (proj2 (proj2 (new_kubeget_outcomes nat string string string string
                         (fun _ => ("d0", None)) (String.append "cache of ")
                         (String.append "mapper over ")
                         (fun _ => ("dynamic", None)) (Some 7)))).
  reflexivity.
Defined.

(** ** [containsString] is [strings.Contains] *)

Lemma byteAt_cons : forall (a : ascii) (s : string) (i : nat),
  byteAt (String a s) (S i) = byteAt s i.
Proof. reflexivity. Qed.

Lemma matchesAt_shift : forall (a : ascii) (s substr : string) (n i j : nat),
  matchesAt (String a s) substr (S i) j n = matchesAt s substr i j n.
Proof.
  intros a s substr. induction n as [| n IH]; intros i j; [reflexivity |].
  simpl. change (byteAt (String a s) (S (i + j))) with (byteAt s (i + j)).
  destruct (byteAt s (i + j)) as [x |]; [| reflexivity].
  destruct (byteAt substr j) as [y |]; [| reflexivity].
  destruct (negb (Ascii.eqb x y)); [reflexivity | apply IH].
Qed.

Lemma matchesAt_both : forall (a b : ascii) (s t : string) (n j : nat),
  matchesAt (String a s) (String b t) 0 (S j) n = matchesAt s t 0 j n.
Proof.
  intros a b s t. induction n as [| n IH]; intro j; [reflexivity |].
  simpl. change (byteAt (String a s) (S j)) with (byteAt s j).
  change (byteAt (String b t) (S j)) with (byteAt t j).
  destruct (byteAt s j) as [x |]; [| reflexivity].
  destruct (byteAt t j) as [y |]; [| reflexivity].
  destruct (negb (Ascii.eqb x y)); [reflexivity | apply IH].
Qed.

Lemma matchesAt_HasPrefix : forall substr s : string,
  String.length substr <= String.length s ->
  matchesAt s substr 0 0 (String.length substr) = Some (HasPrefix s substr).
Proof.
  induction substr as [| b t IH]; intros s Hlen; [reflexivity |].
  destruct s as [| a s]; [simpl in Hlen; lia |].
  simpl in Hlen. cbn [String.length matchesAt Nat.add].
  change (byteAt (String a s) 0) with (Some a).
  change (byteAt (String b t) 0) with (Some b).
  cbn [HasPrefix]. destruct (Ascii.eqb a b); cbn [negb andb]; [| reflexivity].
  rewrite matchesAt_both. apply IH. lia.
Qed.

Lemma searchFrom_shift : forall (a : ascii) (s substr : string) (n i : nat),
  searchFrom (String a s) substr (S i) n = searchFrom s substr i n.
Proof.
  intros a s substr. induction n as [| n IH]; intro i; [reflexivity |].
  simpl. rewrite matchesAt_shift.
  destruct (matchesAt s substr i 0 (String.length substr)) as [[|] |];
    [reflexivity | apply IH | reflexivity].
Qed.

Lemma HasPrefix_short : forall substr s : string,
  String.length s < String.length substr -> HasPrefix s substr = false.
Proof.
  induction substr as [| b t IH]; intros s H; [simpl in H; lia |].
  destruct s as [| a s]; [reflexivity |].
  simpl in H |- *. rewrite IH by lia. apply andb_false_r.
Qed.

Lemma Contains_short : forall s substr : string,
  String.length s < String.length substr -> Contains s substr = false.
Proof.
  induction s as [| a s IH]; intros substr H.
  - simpl. rewrite (HasPrefix_short substr "" H). reflexivity.
  - cbn [Contains]. rewrite (HasPrefix_short substr (String a s) H).
    rewrite IH; [reflexivity |]. simpl in H. lia.
Qed.

Lemma searchFrom_Contains : forall s substr : string,
  0 < String.length substr ->
  String.length substr <= String.length s ->
  searchFrom s substr 0 (String.length s - String.length substr + 1)
  = Some (Contains s substr).
Proof.
  induction s as [| a s IH]; intros substr Hpos Hlen; [simpl in Hlen; lia |].
  cbn [String.length] in Hlen |- *.
  replace (S (String.length s) - String.length substr + 1)
    with (S (S (String.length s) - String.length substr)) by lia.
  cbn [searchFrom]. rewrite (matchesAt_HasPrefix substr (String a s)) by (simpl; lia).
  cbn [Contains]. destruct (HasPrefix (String a s) substr); [reflexivity |].
  rewrite searchFrom_shift. cbn [orb].
  destruct (Nat.eq_dec (String.length substr) (S (String.length s))) as [He | Hn].
  - replace (S (String.length s) - String.length substr) with 0 by lia.
    rewrite Contains_short by lia. reflexivity.
  - replace (S (String.length s) - String.length substr)
      with (String.length s - String.length substr + 1) by lia.
    apply IH; lia.
Qed.

(** X10. The hand-written substring search never reads outside its
    strings and computes, on every pair of byte strings, what
    [strings.Contains] computes: it answers true exactly when [substr]
    occurs in [s], an empty [substr] occurring everywhere. *)
Theorem containsString_is_Contains :
  forall s substr : string,
    containsString s substr = Some (Contains s substr).
Proof.
  intros s substr. unfold containsString.
  destruct (Nat.eqb_spec (String.length substr) 0) as [H0 | H0].
  - destruct substr; [| discriminate H0]. destruct s; reflexivity.
  - destruct (Nat.ltb_spec (String.length s) (String.length substr)) as [Hlt | Hge].
    + rewrite (Contains_short s substr Hlt). reflexivity.
    + apply searchFrom_Contains; lia.
Qed.

(** ** The helpers on ASCII strings *)

Lemma append_assoc_string : forall a b c : string,
  String.append (String.append a b) c = String.append a (String.append b c).
Proof.
  induction a as [| x a IH]; intros b c; simpl; [reflexivity |].
  rewrite IH. reflexivity.
Qed.

Lemma append_empty_r : forall a : string, String.append a "" = a.
Proof. induction a as [| x a IH]; simpl; [reflexivity | rewrite IH; reflexivity]. Qed.

Lemma runes_ascii_cons : forall (b : ascii) (s : string),
  isASCIIByte b = true -> runes (String b s) = N_of_ascii b :: runes s.
Proof.
  intros b s H. unfold isASCIIByte in H. cbn [runes]. rewrite H. reflexivity.
Qed.

Lemma ascii_rune_steps : forall b : ascii,
  isASCIIByte b = true ->
  (if ((97 <=? N_of_ascii b) && (N_of_ascii b <=? 122))%N
   then stringOfRune (N_of_ascii b - 32) else stringOfRune (N_of_ascii b))
  = String (upperByte b) ""
  /\ (if ((65 <=? N_of_ascii b) && (N_of_ascii b <=? 90))%N
      then stringOfRune (N_of_ascii b + 32) else stringOfRune (N_of_ascii b))
     = String (lowerByte b) ""
  /\ stringOfRune (N_of_ascii b) = String b ""
  /\ (N_of_ascii b =? 46)%N = Ascii.eqb b "."%char.
Proof.
  assert (H : forallb (fun b =>
      implb (isASCIIByte b)
        (String.eqb
           (if ((97 <=? N_of_ascii b) && (N_of_ascii b <=? 122))%N
            then stringOfRune (N_of_ascii b - 32) else stringOfRune (N_of_ascii b))
           (String (upperByte b) "")
         && String.eqb
              (if ((65 <=? N_of_ascii b) && (N_of_ascii b <=? 90))%N
               then stringOfRune (N_of_ascii b + 32) else stringOfRune (N_of_ascii b))
              (String (lowerByte b) "")
         && String.eqb (stringOfRune (N_of_ascii b)) (String b "")
         && Bool.eqb (N_of_ascii b =? 46)%N (Ascii.eqb b "."%char)))
      allBytes = true) by (vm_compute; reflexivity).
  intros b Hb. rewrite forallb_forall in H.
  specialize (H b (allBytes_complete b)). rewrite Hb in H. cbn [implb] in H.
  repeat (apply andb_true_iff in H; destruct H as [H ?]).
  repeat split; try (apply String.eqb_eq; assumption).
  apply Bool.eqb_prop. assumption.
Qed.

Lemma toUpper_fold_ascii : forall (s acc : string),
  isASCII s = true ->
  fold_left
    (fun result r =>
       if ((97 <=? r) && (r <=? 122))%N
       then String.append result (stringOfRune (r - 32))
       else String.append result (stringOfRune r))
    (runes s) acc
  = String.append acc (mapBytes upperByte s).
Proof.
  induction s as [| b s IH]; intros acc H.
  - simpl. rewrite append_empty_r. reflexivity.
  - simpl in H. apply andb_true_iff in H. destruct H as [Hb Hs].
    rewrite (runes_ascii_cons b s Hb). cbn [fold_left mapBytes].
    destruct (ascii_rune_steps b Hb) as (Hu & _).
    replace (if ((97 <=? N_of_ascii b) && (N_of_ascii b <=? 122))%N
             then String.append acc (stringOfRune (N_of_ascii b - 32))
             else String.append acc (stringOfRune (N_of_ascii b)))
      with (String.append acc (String (upperByte b) "")).
    + rewrite (IH _ Hs), append_assoc_string. reflexivity.
    + rewrite <- Hu. destruct ((97 <=? N_of_ascii b) && (N_of_ascii b <=? 122))%N;
        reflexivity.
Qed.

Lemma toLower_fold_ascii : forall (s acc : string),
  isASCII s = true ->
  fold_left
    (fun result r =>
       if ((65 <=? r) && (r <=? 90))%N
       then String.append result (stringOfRune (r + 32))
       else String.append result (stringOfRune r))
    (runes s) acc
  = String.append acc (mapBytes lowerByte s).
Proof.
  induction s as [| b s IH]; intros acc H.
  - simpl. rewrite append_empty_r. reflexivity.
  - simpl in H. apply andb_true_iff in H. destruct H as [Hb Hs].
    rewrite (runes_ascii_cons b s Hb). cbn [fold_left mapBytes].
    destruct (ascii_rune_steps b Hb) as (_ & Hl & _).
    replace (if ((65 <=? N_of_ascii b) && (N_of_ascii b <=? 90))%N
             then String.append acc (stringOfRune (N_of_ascii b + 32))
             else String.append acc (stringOfRune (N_of_ascii b)))
      with (String.append acc (String (lowerByte b) "")).
    + rewrite (IH _ Hs), append_assoc_string. reflexivity.
    + rewrite <- Hl. destruct ((65 <=? N_of_ascii b) && (N_of_ascii b <=? 90))%N;
        reflexivity.
Qed.

Lemma toUpper_ascii : forall s : string,
  isASCII s = true -> toUpper s = mapBytes upperByte s.
Proof. intros s H. unfold toUpper. rewrite (toUpper_fold_ascii s "" H). reflexivity. Qed.

Lemma toLower_ascii : forall s : string,
  isASCII s = true -> toLower s = mapBytes lowerByte s.
Proof. intros s H. unfold toLower. rewrite (toLower_fold_ascii s "" H). reflexivity. Qed.

Lemma mapBytes_ascii : forall (f : ascii -> ascii) (s : string),
  (forall b, isASCIIByte (f b) = isASCIIByte b) ->
  isASCII (mapBytes f s) = isASCII s.
Proof.
  intros f s Hf. induction s as [| b s IH]; [reflexivity |].
  simpl. rewrite Hf, IH. reflexivity.
Qed.

Lemma mapBytes_compose : forall (f g h : ascii -> ascii) (s : string),
  (forall b, f (g b) = h b) -> mapBytes f (mapBytes g s) = mapBytes h s.
Proof.
  intros f g h s H. induction s as [| b s IH]; [reflexivity |].
  simpl. rewrite H, IH. reflexivity.
Qed.

Lemma case_compositions : forall b : ascii,
  upperByte (upperByte b) = upperByte b
  /\ upperByte (lowerByte b) = upperByte b.
Proof.
  assert (H : forallb (fun b =>
                Ascii.eqb (upperByte (upperByte b)) (upperByte b)
                && Ascii.eqb (upperByte (lowerByte b)) (upperByte b))
                allBytes = true) by (vm_compute; reflexivity).
  intro b. rewrite forallb_forall in H.
  specialize (H b (allBytes_complete b)). apply andb_true_iff in H.
  destruct H as [H1 H2]. split; apply Ascii.eqb_eq; assumption.
Qed.

(** X11. On an ASCII string the hand-written [toUpper] and [toLower]
    compute what [strings.ToUpper] and [strings.ToLower] compute: the
    letters a to z, respectively A to Z, are replaced byte by byte and
    every other byte is kept.  Both are idempotent, and each absorbs the
    other: upper-casing after lower-casing is upper-casing. *)
Theorem helper_case_functions_on_ascii :
  forall s : string,
    isASCII s = true ->
    toUpper s = @ToUpper AsciiCase s
    /\ toLower s = @ToLower AsciiCase s
    /\ toUpper (toUpper s) = toUpper s
    /\ toLower (toLower s) = toLower s
    /\ toUpper (toLower s) = toUpper s
    /\ toLower (toUpper s) = toLower s.
Proof.
  intros s H.
  assert (Hu : isASCII (mapBytes upperByte s) = true).
  { rewrite mapBytes_ascii; [exact H | intro b; apply case_keeps_ascii]. }
  assert (Hl : isASCII (mapBytes lowerByte s) = true).
  { rewrite mapBytes_ascii; [exact H | intro b; apply case_keeps_ascii]. }
  rewrite (toUpper_ascii s H), (toLower_ascii s H).
  rewrite (toUpper_ascii _ Hu), (toLower_ascii _ Hl).
  rewrite (toUpper_ascii _ Hl), (toLower_ascii _ Hu).
  split; [reflexivity |]. split; [reflexivity |].
  split; [apply mapBytes_compose; intro b; apply case_compositions |].
  split; [apply mapBytes_compose; intro b; apply lowerByte_idempotent |].
  split; [apply mapBytes_compose; intro b; apply case_compositions |].
  apply mapBytes_compose; intro b; apply lowerByte_upperByte.
Qed.

Lemma helper_case_functions_on_ascii_witness :
  toUpper "replicaSet_9" = @ToUpper AsciiCase "replicaSet_9"
  /\ toLower "replicaSet_9" = @ToLower AsciiCase "replicaSet_9"
  /\ toUpper (toUpper "replicaSet_9") = toUpper "replicaSet_9"
  /\ toLower (toLower "replicaSet_9") = toLower "replicaSet_9"
  /\ toUpper (toLower "replicaSet_9") = toUpper "replicaSet_9"
  /\ toLower (toUpper "replicaSet_9") = toLower "replicaSet_9".
Proof.
  apply (helper_case_functions_on_ascii "replicaSet_9"). reflexivity.
Defined.

Lemma capitalizeFirst_cons : forall (b : ascii) (rest : string),
  capitalizeFirst (String b rest)
  = Some (String.append (toUpper (stringOfByte b)) rest).
Proof.
  intros b rest. unfold capitalizeFirst.
  cbn [String.length Nat.eqb]. change (byteAt (String b rest) 0) with (Some b).
  cbv beta iota zeta.
  destruct rest as [| c rest]; reflexivity.
Qed.

Lemma capitalizeFirst_ascii : forall (b : ascii) (rest : string),
  isASCIIByte b = true ->
  capitalizeFirst (String b rest) = Some (upperFirst (String b rest)).
Proof.
  intros b rest Hb. rewrite capitalizeFirst_cons, (stringOfByte_ascii b Hb).
  rewrite toUpper_ascii by (simpl; rewrite Hb; reflexivity). reflexivity.
Qed.

(** X12. [generateKindVariations] never indexes out of range: it returns
    the identifier alone when it is empty and four spellings otherwise,
    the second and the fourth being the same.  On an ASCII identifier
    they are the identifier, the identifier with its first letter
    upper-cased, the identifier upper-cased, and the second again; for an
    identifier of one word this is the list of candidates [findGVR] tries
    exactly when the remainder of the identifier has no upper-case
    letter, since [findGVR] lower-cases the remainder in its fourth
    candidate. *)
Theorem generateKindVariations_outcomes :
  (forall resourceName : string,
     exists spellings,
       generateKindVariations resourceName = Some spellings
       /\ List.length spellings = (if String.eqb resourceName "" then 1 else 4)
       /\ nth 1 spellings "" = nth 3 spellings "")
  /\ (forall (first : ascii) (rest : string),
        isASCII (String first rest) = true ->
        generateKindVariations (String first rest)
        = Some [ String first rest; upperFirst (String first rest);
                 mapBytes upperByte (String first rest);
                 upperFirst (String first rest) ]
        /\ (oneWord (String first rest) = true ->
            (generateKindVariations (String first rest)
             = @kindVariations AsciiCase (String first rest)
             <-> mapBytes lowerByte rest = rest))).
Proof.
  split.
  - intros [| b rest].
    + exists [""]. repeat split.
    + eexists. unfold generateKindVariations. cbn [String.length Nat.eqb].
      rewrite capitalizeFirst_cons. repeat split.
  - intros first rest Hascii.
    assert (Hfirst : isASCIIByte first = true).
    { simpl in Hascii. apply andb_true_iff in Hascii. apply Hascii. }
    assert (E : generateKindVariations (String first rest)
                = Some [ String first rest; upperFirst (String first rest);
                         mapBytes upperByte (String first rest);
                         upperFirst (String first rest) ]).
    { unfold generateKindVariations. cbn [String.length Nat.eqb].
      rewrite (capitalizeFirst_ascii first rest Hfirst), (toUpper_ascii _ Hascii).
      reflexivity. }
    split; [exact E |]. intro Hword. rewrite E.
    rewrite kindVariations_nonempty, (stringOfByte_ascii first Hfirst).
    rewrite (Title_oneWord _ Hword). simpl. split.
    + intro H. injection H as H. symmetry. exact H.
    + intro H. rewrite H. reflexivity.
Qed.

Lemma generateKindVariations_outcomes_witness :
  generateKindVariations "replicaSet"
  = Some [ "replicaSet"; upperFirst "replicaSet"; mapBytes upperByte "replicaSet";
           upperFirst "replicaSet" ]
  /\ (generateKindVariations "replicaSet" = @kindVariations AsciiCase "replicaSet"
      <-> mapBytes lowerByte "eplicaSet" = "eplicaSet").
Proof.
  destruct (proj2 generateKindVariations_outcomes "r"%char "eplicaSet" eq_refl)
    as [Hspell Hsame].
  split; [exact Hspell | apply Hsame; reflexivity].
Defined.

(** ** [splitResourceName] and [parseFullyQualifiedResource] *)

Lemma splitStep_fold_ascii : forall (s : string) (parts : list string) (cur : string),
  isASCII s = true ->
  (let (ps, c) := fold_left splitStep (runes s) (parts, cur) in
   if negb (String.eqb c "") then ps ++ [c] else ps)
  = parts ++ filter nonEmpty
               match Split s "." with
               | piece :: pieces => String.append cur piece :: pieces
               | [] => [cur]
               end.
Proof.
  induction s as [| b s IH]; intros parts cur H.
  - simpl. rewrite append_empty_r. unfold nonEmpty.
    destruct (negb (String.eqb cur "")); [reflexivity | rewrite app_nil_r; reflexivity].
  - simpl in H. apply andb_true_iff in H. destruct H as [Hb Hs].
    rewrite (runes_ascii_cons b s Hb). cbn [fold_left].
    destruct (ascii_rune_steps b Hb) as (_ & _ & Hplain & Hdot).
    rewrite Split_cons. unfold splitStep at 2. rewrite Hdot, Hplain.
    pose proof (Split_not_nil s) as Hnil.
    destruct (Ascii.eqb b "."%char).
    + rewrite append_empty_r. cbn [filter]. unfold nonEmpty at 1.
      destruct (String.eqb_spec cur "") as [Ec | Ec]; cbn [negb].
      * subst cur. rewrite (IH _ "" Hs).
        destruct (Split s ".") as [| p ps]; [contradiction | reflexivity].
      * rewrite (IH _ "" Hs). destruct (Split s ".") as [| p ps]; [contradiction |].
        cbn [String.append]. rewrite <- app_assoc. reflexivity.
    + rewrite (IH _ _ Hs). destruct (Split s ".") as [| p ps]; [contradiction |].
      rewrite append_assoc_string. reflexivity.
Qed.

(** X13. On an ASCII identifier [splitResourceName] returns the
    identifier alone when it has no dot, and otherwise the pieces that
    [strings.Split] cuts at the dots with the empty ones left out: a
    leading, a trailing or a doubled dot gives no piece. *)
Theorem splitResourceName_on_ascii :
  forall resourceName : string,
    isASCII resourceName = true ->
    splitResourceName resourceName
    = Some (if Contains resourceName "."
            then filter nonEmpty (Split resourceName ".")
            else [resourceName]).
Proof.
  intros resourceName H. unfold splitResourceName.
  rewrite containsString_is_Contains.
  destruct (Contains resourceName "."); [| reflexivity].
  pose proof (splitStep_fold_ascii resourceName [] "" H) as Hfold.
  destruct (fold_left splitStep (runes resourceName) ([], "")) as [ps c].
  pose proof (Split_not_nil resourceName) as Hnil.
  destruct (Split resourceName ".") as [| p rest]; [contradiction |].
  cbn [String.append app] in Hfold. rewrite <- Hfold.
  destruct (negb (String.eqb c "")); reflexivity.
Qed.

Lemma splitResourceName_on_ascii_witness :
  splitResourceName ".apps..v1."
  = Some (if Contains ".apps..v1." "."
          then filter nonEmpty (Split ".apps..v1." ".")
          else [".apps..v1."]).
Proof.
  apply (splitResourceName_on_ascii ".apps..v1."). reflexivity.
Defined.

Lemma groupStep_fold_later : forall (ps : list string) (i : nat) (acc : string),
  0 < i ->
  snd (fold_left groupStep ps (i, acc))
  = match ps with
    | [] => acc
    | _ :: _ => String.append acc (String.append "." (String.concat "." ps))
    end.
Proof.
  induction ps as [| p ps IH]; intros i acc Hi; [reflexivity |].
  cbn [fold_left groupStep]. destruct (Nat.ltb_spec 0 i) as [_ | Hn]; [| lia].
  rewrite IH by lia. destruct ps as [| q qs].
  - rewrite append_assoc_string. reflexivity.
  - change (String.concat "." (p :: q :: qs))
      with (String.append p (String.append "." (String.concat "." (q :: qs)))).
    rewrite !append_assoc_string. reflexivity.
Qed.

Lemma groupStep_fold : forall ps : list string,
  snd (fold_left groupStep ps (0, "")) = Join ps ".".
Proof.
  intros [| p ps]; [reflexivity |].
  cbn [fold_left groupStep Nat.ltb Nat.leb String.append].
  rewrite groupStep_fold_later by lia. destruct ps; reflexivity.
Qed.

Lemma parseFullyQualifiedResource_three : forall parts : list string,
  3 <= List.length parts ->
  parseFullyQualifiedResource parts
  = Some (mkGVR (Join (skipn 2 parts) ".") (nth 1 parts "") (nth 0 parts "")).
Proof.
  intros parts H. unfold parseFullyQualifiedResource.
  destruct (Nat.ltb_spec (List.length parts) 3) as [Hlt | _]; [lia |].
  destruct (Nat.ltb_spec 2 (List.length parts)) as [_ | Hge]; [| lia].
  destruct parts as [| p0 [| p1 [| p2 rest]]]; simpl in H; try lia.
  cbn [elemAt nth_error elemsFrom nth skipn].
  rewrite groupStep_fold. reflexivity.
Qed.

Lemma filter_all : forall (A : Type) (f : A -> bool) (l : list A),
  forallb f l = true -> filter f l = l.
Proof.
  intros A f l. induction l as [| x l IH]; simpl; [reflexivity |].
  intro H. apply andb_true_iff in H. destruct H as [Hx Hl].
  rewrite Hx, (IH Hl). reflexivity.
Qed.

(** X14. From the pieces that [strings.Split] cuts at the dots,
    [parseFullyQualifiedResource] builds the very descriptor [findGVR]
    returns for an identifier of three or more segments, and the zero
    descriptor from fewer than three parts.  Composed with
    [splitResourceName] it agrees with [findGVR] on every ASCII
    identifier of three or more segments none of which is empty. *)
Theorem helper_parse_agrees_with_findGVR :
  forall caseOps : CaseOps,
    (forall resourceName : string,
       3 <= List.length (Split resourceName ".") ->
       exists gvr,
         parseFullyQualifiedResource (Split resourceName ".") = Some gvr
         /\ findGVR resourceName = Ret (gvr, None))
    /\ (forall parts : list string,
          List.length parts < 3 -> parseFullyQualifiedResource parts = Some zeroGVR)
    /\ (forall resourceName : string,
          isASCII resourceName = true ->
          3 <= List.length (Split resourceName ".") ->
          forallb nonEmpty (Split resourceName ".") = true ->
          exists parts gvr,
            splitResourceName resourceName = Some parts
            /\ parseFullyQualifiedResource parts = Some gvr
            /\ findGVR resourceName = Ret (gvr, None)).
Proof.
  intros caseOps.
  assert (Hfind : forall resourceName : string,
            3 <= List.length (Split resourceName ".") ->
            findGVR resourceName
            = Ret (mkGVR (Join (skipn 2 (Split resourceName ".")) ".")
                     (nth 1 (Split resourceName ".") "")
                     (nth 0 (Split resourceName ".") ""), None)).
  { intros resourceName H3. unfold findGVR.
    rewrite (eqb_empty_false _ (three_parts_not_empty resourceName H3)).
    rewrite (fullyQualified_three_parts resourceName H3). reflexivity. }
  split; [| split].
  - intros resourceName H3. eexists. split.
    + apply (parseFullyQualifiedResource_three _ H3).
    + apply (Hfind _ H3).
  - intros parts H. unfold parseFullyQualifiedResource.
    destruct (Nat.ltb_spec (List.length parts) 3) as [_ | Hge]; [reflexivity | lia].
  - intros resourceName Hascii H3 Hall.
    exists (Split resourceName "."). eexists. split; [| split].
    + rewrite (splitResourceName_on_ascii _ Hascii).
      rewrite (three_parts_have_dot _ H3), (filter_all _ _ _ Hall). reflexivity.
    + apply (parseFullyQualifiedResource_three _ H3).
    + apply (Hfind _ H3).
Qed.

Lemma helper_parse_agrees_with_findGVR_witness :
  exists parts gvr,
    splitResourceName "replicasets.v1.apps" = Some parts
    /\ parseFullyQualifiedResource parts = Some gvr
    /\ findGVR "replicasets.v1.apps" = Ret (gvr, None).
Proof.
  apply (proj2 (proj2 (helper_parse_agrees_with_findGVR AsciiCase))
           "replicasets.v1.apps").
  - reflexivity.
  - vm_compute. lia.
  - reflexivity.
Defined.

Lemma Split_piece_then_dot : forall piece rest : string,
  Contains piece "." = false ->
  Split (String.append piece (String "."%char rest)) "." = piece :: Split rest ".".
Proof.
  induction piece as [| a piece IH]; intros rest H.
  - cbn [String.append]. rewrite Split_cons. reflexivity.
  - cbn [Contains HasPrefix] in H. rewrite andb_true_r in H.
    apply orb_false_iff in H. destruct H as [Ha Hp].
    cbn [String.append]. rewrite Split_cons, Ha, (IH rest Hp). reflexivity.
Qed.

Lemma Contains_dot_append : forall piece rest : string,
  Contains (String.append piece (String "."%char rest)) "." = true.
Proof.
  induction piece as [| a piece IH]; intro rest.
  - reflexivity.
  - cbn [String.append Contains]. rewrite IH. apply orb_true_r.
Qed.

Lemma isASCII_append : forall a b : string,
  isASCII (String.append a b) = isASCII a && isASCII b.
Proof.
  induction a as [| x a IH]; intro b; [reflexivity |].
  simpl. rewrite IH, andb_assoc. reflexivity.
Qed.

(** X15. For the core-group form [resource.version.], with a resource
    and a version that are ASCII, not empty and without a dot, the
    helpers and [findGVR] part ways: [findGVR] returns the descriptor of
    the resource in the unnamed group, while [splitResourceName] drops
    the empty last piece, keeps two parts, and
    [parseFullyQualifiedResource] makes the zero descriptor of them. *)
Theorem core_group_form_splits_differently :
  forall (caseOps : CaseOps) (resource version : string),
    isASCII resource = true -> isASCII version = true ->
    resource <> "" -> version <> "" ->
    Contains resource "." = false -> Contains version "." = false ->
    let resourceName :=
      String.append resource (String "."%char (String.append version ".")) in
    findGVR resourceName = Ret (mkGVR "" version resource, None)
    /\ splitResourceName resourceName = Some [resource; version]
    /\ parseFullyQualifiedResource [resource; version] = Some zeroGVR.
Proof.
  intros caseOps resource version Har Hav Hnr Hnv Hdr Hdv resourceName.
  assert (Hsplit : Split resourceName "." = [resource; version; ""]).
  { subst resourceName. rewrite (Split_piece_then_dot resource _ Hdr).
    rewrite (Split_piece_then_dot version "" Hdv). reflexivity. }
  split; [| split].
  - unfold findGVR.
    assert (H3 : 3 <= List.length (Split resourceName ".")) by (rewrite Hsplit; simpl; lia).
    rewrite (eqb_empty_false _ (three_parts_not_empty resourceName H3)).
    rewrite (fullyQualified_three_parts resourceName H3), Hsplit. reflexivity.
  - assert (Hc : Contains resourceName "." = true) by apply Contains_dot_append.
    assert (Ha : isASCII resourceName = true).
    { unfold resourceName. rewrite isASCII_append. cbn [isASCII].
      rewrite isASCII_append, Har, Hav. reflexivity. }
    rewrite (splitResourceName_on_ascii _ Ha), Hc, Hsplit.
    cbn [filter]. unfold nonEmpty.
    rewrite (eqb_empty_false _ Hnr), (eqb_empty_false _ Hnv). reflexivity.
  - reflexivity.
Qed.

Lemma core_group_form_splits_differently_witness :
  findGVR "services.v1." = Ret (mkGVR "" "v1" "services", None)
  /\ splitResourceName "services.v1." = Some ["services"; "v1"]
  /\ parseFullyQualifiedResource ["services"; "v1"] = Some zeroGVR.
Proof.
  apply (core_group_form_splits_differently AsciiCase "services" "v1");
    try reflexivity; discriminate.
Defined.

(** ** The repeated Kind lookup *)

Lemma run_tryKinds_cons :
  forall (W : Type) (k : KubeGet W) (kind : string)
         (kinds : list string) (w : W),
    run k (tryKinds (kind :: kinds)) w =
    let (out, w1) := restMapper_RESTMappings k (mkGK "" kind) w in
    match firstMapping out with
    | Some gvr => (Some (Some gvr), w1, [EvRESTMappings (mkGK "" kind) out])
    | None =>
        let '(r, w2, evs) := run k (tryKinds kinds) w1 in
        (r, w2, EvRESTMappings (mkGK "" kind) out :: evs)
    end.
Proof.
  intros W k kind kinds w.
  change (tryKinds (kind :: kinds))
    with (bind (call (RESTMappings (mkGK "" kind)))
            (fun out => match firstMapping out with
                        | Some gvr => ret (Some gvr)
                        | None => tryKinds kinds
                        end)).
  rewrite run_call_bind. simpl perform.
  destruct (restMapper_RESTMappings k (mkGK "" kind) w) as [out w1].
  destruct (firstMapping out); reflexivity.
Qed.



(** ** [capitalizeFirst] on every string *)

Lemma toUpper_of_byte : forall b : ascii,
  toUpper (stringOfByte b)
  = if isASCIIByte b then String (upperByte b) "" else stringOfByte b.
Proof.
  assert (H : forallb (fun b =>
                String.eqb (toUpper (stringOfByte b))
                  (if isASCIIByte b then String (upperByte b) "" else stringOfByte b))
                allBytes = true) by (vm_compute; reflexivity).
  intro b. rewrite forallb_forall in H. apply String.eqb_eq.
  apply H. apply allBytes_complete.
Qed.

Lemma stringOfByte_length : forall b : ascii,
  String.length (stringOfByte b) = if isASCIIByte b then 1 else 2.
Proof.
  intro b. unfold stringOfByte, isASCIIByte.
  destruct (N_of_ascii b <? 128)%N; reflexivity.
Qed.

Lemma append_length_string : forall a b : string,
  String.length (String.append a b) = String.length a + String.length b.
Proof.
  induction a as [| x a IH]; intro b; simpl; [reflexivity | rewrite IH; reflexivity].
Qed.

(** X17. [capitalizeFirst] never indexes out of range and keeps
    everything after the first byte as it is.  A first byte that is
    ASCII is upper-cased in place; a first byte that is not (the start of
    every character outside ASCII) is replaced by the two bytes that
    encode it as a code point of its own, so the result is one byte
    longer than the string, and the bytes that completed the first
    character now follow those two. *)
Theorem capitalizeFirst_on_every_string :
  capitalizeFirst "" = Some ""
  /\ forall (b : ascii) (rest : string),
       exists capitalized,
         capitalizeFirst (String b rest) = Some capitalized
         /\ (isASCIIByte b = true -> capitalized = String (upperByte b) rest)
         /\ (isASCIIByte b = false ->
             capitalized
             = String (ascii_of_N (192 + N_of_ascii b / 64))
                 (String (ascii_of_N (128 + N_of_ascii b mod 64)) rest)
             /\ String.length capitalized = S (String.length (String b rest))).
Proof.
  split; [reflexivity |]. intros b rest.
  eexists. split; [apply capitalizeFirst_cons |].
  rewrite toUpper_of_byte. split.
  - intros ->. reflexivity.
  - intros Hb. rewrite Hb. split.
    + unfold stringOfByte. unfold isASCIIByte in Hb. rewrite Hb. reflexivity.
    + rewrite append_length_string, stringOfByte_length, Hb. reflexivity.
Qed.

Lemma capitalizeFirst_on_every_string_witness :
  exists capitalized,
    capitalizeFirst (String (ascii_of_nat 195) (String (ascii_of_nat 169) "tcd"))
    = Some capitalized
    /\ capitalized
       = String (ascii_of_nat 195)
           (String (ascii_of_nat 131) (String (ascii_of_nat 169) "tcd"))
    /\ String.length capitalized = 6.
Proof.
  destruct (proj2 capitalizeFirst_on_every_string (ascii_of_nat 195)
              (String (ascii_of_nat 169) "tcd")) as (c & Hc & _ & Hn).
  exists c. split; [exact Hc |]. apply Hn. reflexivity.
Defined.


(** ** The helpers on every string *)

Lemma anyByte_append : forall (f : ascii -> bool) (a b : string),
  anyByte f (String.append a b) = anyByte f a || anyByte f b.
Proof.
  intros f a b. induction a as [| x a IH]; [reflexivity |].
  simpl. rewrite IH, orb_assoc. reflexivity.
Qed.

Lemma byteOfN_value : forall n : N,
  (n < 256)%N -> N_of_ascii (ascii_of_N n) = n.
Proof. intros n H. apply N_ascii_embedding. exact H. Qed.

Lemma byteOfN_case : forall n : N,
  (n < 256)%N -> (n < 65 \/ 122 < n \/ (90 < n /\ n < 97))%N ->
  anyByte isLowerByte (byteOfN n) = false
  /\ anyByte isUpperByte (byteOfN n) = false.
Proof.
  intros n Hn Hr. unfold byteOfN, anyByte, isLowerByte, isUpperByte.
  rewrite (byteOfN_value n Hn). rewrite !orb_false_r. split.
  - apply andb_false_iff.
    destruct (N.leb_spec 97 n); [right; apply N.leb_gt; lia | left; reflexivity].
  - apply andb_false_iff.
    destruct (N.leb_spec 65 n); [right; apply N.leb_gt; lia | left; reflexivity].
Qed.

Lemma stringOfRune_case : forall r : N,
  (r < 65 \/ 122 < r \/ (90 < r /\ r < 97))%N ->
  anyByte isLowerByte (stringOfRune r) = false
  /\ anyByte isUpperByte (stringOfRune r) = false.
Proof.
  intros r Hr. unfold stringOfRune.
  pose proof (N.le_0_l (r / 64)) as P1.
  pose proof (N.le_0_l (r / 4096)) as P2.
  pose proof (N.le_0_l (r / 262144)) as P3.
  pose proof (N.le_0_l (r mod 64)) as P4.
  pose proof (N.le_0_l ((r / 64) mod 64)) as P5.
  pose proof (N.le_0_l ((r / 4096) mod 64)) as P6.
  destruct (N.leb_spec r 127) as [H1 | H1].
  { apply byteOfN_case; lia. }
  destruct (N.leb_spec r 2047) as [H2 | H2].
  { pose proof (N.Div0.div_le_mono r 2047 64 H2) as Hd.
    change (2047 / 64)%N with 31%N in Hd.
    pose proof (N.mod_lt r 64 ltac:(discriminate)) as Hm.
    rewrite !anyByte_append.
    destruct (byteOfN_case (192 + r / 64) ltac:(lia) ltac:(lia)) as [-> ->].
    destruct (byteOfN_case (128 + r mod 64) ltac:(lia) ltac:(lia)) as [-> ->].
    split; reflexivity. }
  destruct ((1114111 <? r)%N || ((55296 <=? r) && (r <=? 57343))%N) eqn:E.
  { split; reflexivity. }
  apply orb_false_iff in E. destruct E as [E _]. apply N.ltb_ge in E.
  destruct (N.leb_spec r 65535) as [H3 | H3].
  { pose proof (N.Div0.div_le_mono r 65535 4096 H3) as Hd.
    change (65535 / 4096)%N with 15%N in Hd.
    pose proof (N.mod_lt (r / 64) 64 ltac:(discriminate)) as Hm1.
    pose proof (N.mod_lt r 64 ltac:(discriminate)) as Hm.
    rewrite !anyByte_append.
    destruct (byteOfN_case (224 + r / 4096) ltac:(lia) ltac:(lia)) as [-> ->].
    destruct (byteOfN_case (128 + (r / 64) mod 64) ltac:(lia) ltac:(lia)) as [-> ->].
    destruct (byteOfN_case (128 + r mod 64) ltac:(lia) ltac:(lia)) as [-> ->].
    split; reflexivity. }
  pose proof (N.Div0.div_le_mono r 1114111 262144 E) as Hd.
  change (1114111 / 262144)%N with 4%N in Hd.
  pose proof (N.mod_lt (r / 4096) 64 ltac:(discriminate)) as Hm2.
  pose proof (N.mod_lt (r / 64) 64 ltac:(discriminate)) as Hm1.
  pose proof (N.mod_lt r 64 ltac:(discriminate)) as Hm.
  rewrite !anyByte_append.
  destruct (byteOfN_case (240 + r / 262144) ltac:(lia) ltac:(lia)) as [-> ->].
  destruct (byteOfN_case (128 + (r / 4096) mod 64) ltac:(lia) ltac:(lia)) as [-> ->].
  destruct (byteOfN_case (128 + (r / 64) mod 64) ltac:(lia) ltac:(lia)) as [-> ->].
  destruct (byteOfN_case (128 + r mod 64) ltac:(lia) ltac:(lia)) as [-> ->].
  split; reflexivity.
Qed.

Lemma stringOfRune_letter : forall r : N,
  (65 <= r <= 90 -> anyByte isLowerByte (stringOfRune r) = false)%N
  /\ (97 <= r <= 122 -> anyByte isUpperByte (stringOfRune r) = false)%N.
Proof.
  intro r. split; intro H.
  - unfold stringOfRune. destruct (N.leb_spec r 127); [| lia].
    unfold byteOfN, anyByte, isLowerByte. rewrite byteOfN_value by lia.
    rewrite orb_false_r. apply andb_false_iff. left. apply N.leb_gt. lia.
  - unfold stringOfRune. destruct (N.leb_spec r 127); [| lia].
    unfold byteOfN, anyByte, isUpperByte. rewrite byteOfN_value by lia.
    rewrite orb_false_r. apply andb_false_iff. right. apply N.leb_gt. lia.
Qed.

(** X18. Whatever bytes it is given, valid UTF-8 or not, [toUpper]
    returns a string with no letter a to z in it, and [toLower] one with
    no letter A to Z. *)
Theorem helper_case_functions_leave_no_letter :
  forall s : string,
    anyByte isLowerByte (toUpper s) = false
    /\ anyByte isUpperByte (toLower s) = false.
Proof.
  intro s. unfold toUpper, toLower. split.
  - assert (H : forall (l : list N) (acc : string),
              anyByte isLowerByte acc = false ->
              anyByte isLowerByte
                (fold_left
                   (fun result r =>
                      if ((97 <=? r) && (r <=? 122))%N
                      then String.append result (stringOfRune (r - 32))
                      else String.append result (stringOfRune r)) l acc) = false).
    { induction l as [| r l IH]; intros acc Hacc; [exact Hacc |].
      cbn [fold_left]. apply IH.
      destruct ((97 <=? r) && (r <=? 122))%N eqn:E; rewrite anyByte_append, Hacc.
      - apply andb_true_iff in E. destruct E as [E1 E2].
        apply N.leb_le in E1. apply N.leb_le in E2.
        apply (proj1 (stringOfRune_letter (r - 32))). lia.
      - apply andb_false_iff in E.
        destruct (N.le_gt_cases 65 r) as [H65 | H65].
        + destruct (N.le_gt_cases r 90) as [H90 | H90].
          * apply (proj1 (stringOfRune_letter r)). lia.
          * apply stringOfRune_case.
            destruct E as [E | E]; [apply N.leb_gt in E | apply N.leb_gt in E]; lia.
        + apply stringOfRune_case. lia. }
    apply H. reflexivity.
  - assert (H : forall (l : list N) (acc : string),
              anyByte isUpperByte acc = false ->
              anyByte isUpperByte
                (fold_left
                   (fun result r =>
                      if ((65 <=? r) && (r <=? 90))%N
                      then String.append result (stringOfRune (r + 32))
                      else String.append result (stringOfRune r)) l acc) = false).
    { induction l as [| r l IH]; intros acc Hacc; [exact Hacc |].
      cbn [fold_left]. apply IH.
      destruct ((65 <=? r) && (r <=? 90))%N eqn:E; rewrite anyByte_append, Hacc.
      - apply andb_true_iff in E. destruct E as [E1 E2].
        apply N.leb_le in E1. apply N.leb_le in E2.
        apply (proj2 (stringOfRune_letter (r + 32))). lia.
      - apply andb_false_iff in E.
        destruct (N.le_gt_cases 97 r) as [H97 | H97].
        + destruct (N.le_gt_cases r 122) as [H122 | H122].
          * apply (proj2 (stringOfRune_letter r)). lia.
          * apply stringOfRune_case. lia.
        + apply stringOfRune_case.
          destruct E as [E | E]; [apply N.leb_gt in E | apply N.leb_gt in E]; lia. }
    apply H. reflexivity.
Qed.
